(** * Nexus calculator: the detection and liability engine of [nexus_cli]

    A shallow embedding of [nexus_cli/analyzer.py] and of the three lookups
    of [nexus_cli/config_loader.py] it calls.

    Conventions of the model.
    - Amounts, thresholds, rates and percentages are the exact rationals [Q]:
      the arithmetic of the analyzer is modelled without rounding.
    - Python [int]s are [Z]; list lengths are converted with [Z.of_nat].
    - Strings are [string]s of bytes, compared byte by byte as Python
      compares code points; [upper] and [isalpha] are modelled on ASCII.
    - A [dict] is an association list in insertion order.
    - A list that is appended to in place ([warnings]) is threaded through
      the calls.
    - An [IndexError] is the [None] of an [option] result. *)

From Stdlib Require Import List ZArith QArith Qminmax String Ascii Bool.
From Stdlib Require Import Lia Lqa Permutation Sorted DecimalString.
Import ListNotations.

Local Open Scope Z_scope.

(** ** Dates *)

(** [datetime.date]: ordered by year, then month, then day. *)
Record date := mkdate { year : Z; month : Z; day : Z }.

Definition date_compare (a b : date) : comparison :=
  match year a ?= year b with
  | Eq => match month a ?= month b with
          | Eq => day a ?= day b
          | c => c
          end
  | c => c
  end.

Definition date_ltb (a b : date) : bool :=
  match date_compare a b with Lt => true | _ => false end.

Definition date_leb (a b : date) : bool :=
  match date_compare a b with Gt => false | _ => true end.

(** ** The data model *)

Module Transaction.
Record t := mk {
  id : string;
  state_code : string;
  amount : Q;
  date : date;
  revenue_type : option string
}.
End Transaction.

Module StateRule.
Record t := mk {
  state_code : string;
  amount : Q;
  transactions : option Z;
  effective_date : date;
  end_date : option date;
  rule_id : string;
  notes : option string
}.
End StateRule.

Module TaxRateInfo.
Record t := mk {
  state_rate : Q;
  avg_local_rate : Q;
  combined_rate : Q;
  max_local_rate : Q
}.
End TaxRateInfo.

Module StateResult.
Record t := mk {
  state_code : string;
  has_nexus : bool;
  total_revenue : Q;
  total_transactions : Z;
  threshold_revenue : Q;
  threshold_transactions : option Z;
  breach_type : option string;
  breach_date : option date;
  breach_transaction_id : option string;
  threshold_percentage : Q;
  tax_rate : Q;
  estimated_liability : Q
}.
End StateResult.

Module AnalysisResult.
Record t := mk {
  state_results : list StateResult.t;
  total_liability : Q;
  analysis_year : Z;
  transaction_count : Z;
  warnings : list string
}.
End AnalysisResult.

(** ** Python primitives used by the analyzer *)

(** Comparisons of rationals as booleans. *)
Definition Qgeb (x y : Q) : bool := Qle_bool y x.
Definition Qgtb (x y : Q) : bool :=
  match (x ?= y)%Q with Gt => true | _ => false end.
Definition Qltb (x y : Q) : bool :=
  match (x ?= y)%Q with Lt => true | _ => false end.

(** [sum(xs)]: a left fold of [+] from [0]. *)
Definition sum (xs : list Q) : Q := fold_left Qplus xs 0%Q.

(** [max(a, b)]: the first argument unless the second is strictly larger. *)
Definition max (a b : Q) : Q := if Qgtb b a then b else a.

(** [len(xs)]. *)
Definition len {A} (xs : list A) : Z := Z.of_nat (List.length xs).

(** [xs[i]] for an index [i >= 0]; [None] is the [IndexError]. *)
Definition index {A} (xs : list A) (i : Z) : option A :=
  nth_error xs (Z.to_nat i).

(** [xs[i:]] for an index [i >= 0]. *)
Definition slice_from {A} (xs : list A) (i : Z) : list A :=
  skipn (Z.to_nat i) xs.

(** Truth value of an [Optional[int]]: set and not zero. *)
Definition truthy (n : option Z) : bool :=
  match n with Some k => negb (k =? 0) | None => false end.

(** [x or 0.0] for an [Optional[float]] [x]. *)
Definition or_zero (x : option Q) : Q :=
  match x with
  | Some r => if Qeq_bool r 0 then 0%Q else r
  | None => 0%Q
  end.

(** [str(n)] for an [int]. *)
Definition str (n : Z) : string := NilZero.string_of_int (Z.to_int n).

(** [str.upper] on ASCII. *)
Definition upper_ascii (c : ascii) : ascii :=
  let n := N_of_ascii c in
  if ((97 <=? n) && (n <=? 122))%N then ascii_of_N (n - 32) else c.

Fixpoint upper (s : string) : string :=
  match s with
  | EmptyString => EmptyString
  | String c s' => String (upper_ascii c) (upper s')
  end.

(** [str.isalpha] on ASCII: not empty and letters only. *)
Definition isalpha_ascii (c : ascii) : bool :=
  let n := N_of_ascii c in
  (((65 <=? n) && (n <=? 90)) || ((97 <=? n) && (n <=? 122)))%N.

Fixpoint all_alpha (s : string) : bool :=
  match s with
  | EmptyString => true
  | String c s' => isalpha_ascii c && all_alpha s'
  end.

Definition isalpha (s : string) : bool :=
  match s with
  | EmptyString => false
  | _ => all_alpha s
  end.

(** ** Dictionaries in insertion order *)

Section Dict.
Context {V : Type}.

Fixpoint dict_get (d : list (string * V)) (k : string) : option V :=
  match d with
  | [] => None
  | (k', v) :: d' => if String.eqb k k' then Some v else dict_get d' k
  end.

Definition dict_keys (d : list (string * V)) : list string := map fst d.
Definition dict_values (d : list (string * V)) : list V := map snd d.
End Dict.

(** ** [config_loader.py]: the lookups the analyzer calls

    The two YAML files are taken as parsed: [raw_states] is the [states]
    mapping of [state_rules.yaml], [raw_rates] the [rates] mapping of
    [tax_rates.yaml].  Reading and validating the files is not modelled. *)

Record ConfigLoader := mkConfigLoader {
  raw_states : list (string * StateRule.t);
  raw_rates : list (string * TaxRateInfo.t)
}.

(** [rule_data["state_code"] = state_code] before the rule is built. *)
Definition with_state_code (state_code : string) (r : StateRule.t) : StateRule.t :=
  StateRule.mk state_code (StateRule.amount r) (StateRule.transactions r)
    (StateRule.effective_date r) (StateRule.end_date r) (StateRule.rule_id r)
    (StateRule.notes r).

(** [load_state_rules().states]. *)
Definition load_state_rules (loader : ConfigLoader) : list (string * StateRule.t) :=
  map (fun kv => (fst kv, with_state_code (fst kv) (snd kv))) (raw_states loader).

(** [load_tax_rates().rates]. *)
Definition load_tax_rates (loader : ConfigLoader) : list (string * TaxRateInfo.t) :=
  raw_rates loader.

Definition is_current (today : date) (rule : StateRule.t) : bool :=
  match StateRule.end_date rule with
  | None => true
  | Some e => date_ltb today e
  end.

Definition get_current_rules (loader : ConfigLoader) (today : date) : list StateRule.t :=
  filter (is_current today) (dict_values (load_state_rules loader)).

Definition get_rule_for_state (loader : ConfigLoader) (today : date)
    (state_code : string) : option StateRule.t :=
  let state_code := upper state_code in
  match dict_get (load_state_rules loader) state_code with
  | None => None
  | Some rule =>
      match StateRule.end_date rule with
      | Some e => if date_leb e today then None else Some rule
      | None => Some rule
      end
  end.

Definition get_tax_rate (loader : ConfigLoader) (state_code : string) : option Q :=
  let state_code := upper state_code in
  match dict_get (load_tax_rates loader) state_code with
  | None => None
  | Some info => Some (TaxRateInfo.combined_rate info)
  end.

(** ** [analyzer.py] *)

Definition _is_valid_state_code (code : string) : bool :=
  (Z.of_nat (String.length code) =? 2) && isalpha code.

Definition invalid_state_warning (code : string) : string :=
  ("Invalid state code: " ++ code)%string.

Definition filtered_out_warning (filtered_count : Z) : string :=
  ("Filtered out " ++ str filtered_count ++ " marketplace transactions")%string.

Definition no_rule_warning (state_code : string) : string :=
  ("No rule found for state: " ++ state_code)%string.

Definition is_marketplace (txn : Transaction.t) : bool :=
  match Transaction.revenue_type txn with
  | Some s => String.eqb s "marketplace"
  | None => false
  end.

(** The [for txn in transactions] loop of [_filter_transactions]; the pair
    is the list [filtered] and the list [warnings] after the loop. *)
Fixpoint filter_loop (transactions : list Transaction.t) (yr : Z)
    (ignore_marketplace include_negatives : bool)
    (filtered : list Transaction.t) (warnings : list string)
    : list Transaction.t * list string :=
  match transactions with
  | [] => (filtered, warnings)
  | txn :: rest =>
      if negb (year (Transaction.date txn) =? yr) then
        filter_loop rest yr ignore_marketplace include_negatives filtered warnings
      else if ignore_marketplace && is_marketplace txn then
        filter_loop rest yr ignore_marketplace include_negatives filtered warnings
      else if negb include_negatives && Qltb (Transaction.amount txn) 0 then
        filter_loop rest yr ignore_marketplace include_negatives filtered warnings
      else if negb (_is_valid_state_code (Transaction.state_code txn)) then
        filter_loop rest yr ignore_marketplace include_negatives filtered
          (warnings ++ [invalid_state_warning (Transaction.state_code txn)])
      else
        filter_loop rest yr ignore_marketplace include_negatives
          (filtered ++ [txn]) warnings
  end.

Definition _filter_transactions (transactions : list Transaction.t) (yr : Z)
    (ignore_marketplace include_negatives : bool) (warnings : list string)
    : list Transaction.t * list string :=
  let '(filtered, warnings) :=
    filter_loop transactions yr ignore_marketplace include_negatives [] warnings in
  let warnings :=
    if ignore_marketplace then
      let filtered_count := len transactions - len filtered in
      if filtered_count >? 0 then warnings ++ [filtered_out_warning filtered_count]
      else warnings
    else warnings in
  (filtered, warnings).

(** [by_state[k].append(txn)], after [by_state[k] = []] when [k] is new. *)
Fixpoint dict_append (by_state : list (string * list Transaction.t))
    (k : string) (txn : Transaction.t) : list (string * list Transaction.t) :=
  match by_state with
  | [] => [(k, [txn])]
  | (k', l) :: rest =>
      if String.eqb k k' then (k', l ++ [txn]) :: rest
      else (k', l) :: dict_append rest k txn
  end.

Definition _group_by_state (transactions : list Transaction.t)
    : list (string * list Transaction.t) :=
  fold_left (fun by_state txn => dict_append by_state (Transaction.state_code txn) txn)
    transactions [].

(** The key [(t.date, t.id)] and the [<] of Python tuples on it. *)
Definition sort_key (t : Transaction.t) : date * string :=
  (Transaction.date t, Transaction.id t).

Definition key_ltb (a b : date * string) : bool :=
  match date_compare (fst a) (fst b) with
  | Lt => true
  | Gt => false
  | Eq => String.ltb (snd a) (snd b)
  end.

(** [sorted(transactions, key=...)]: the stable sort, as an insertion sort
    that puts an element before the elements of equal key that follow it in
    the input. *)
Fixpoint insert (x : Transaction.t) (l : list Transaction.t) : list Transaction.t :=
  match l with
  | [] => [x]
  | y :: l' =>
      if key_ltb (sort_key y) (sort_key x) then y :: insert x l' else x :: l
  end.

Definition sorted (transactions : list Transaction.t) : list Transaction.t :=
  fold_right insert [] transactions.

(** The [for idx, txn in enumerate(sorted_txns)] loop of [_analyze_state]:
    the values of [total_revenue], [total_txns], [breach_idx] and
    [breach_type] when the loop is left. *)
Fixpoint detect_loop (rule : StateRule.t) (idx : Z) (txns : list Transaction.t)
    (total_revenue : Q) (total_txns : Z) : Q * Z * Z * option string :=
  match txns with
  | [] => (total_revenue, total_txns, -1, None)
  | txn :: rest =>
      let total_revenue := (total_revenue + Transaction.amount txn)%Q in
      let total_txns := total_txns + 1 in
      if Qgeb total_revenue (StateRule.amount rule) then
        (total_revenue, total_txns, idx, Some "revenue"%string)
      else if truthy (StateRule.transactions rule)
              && (total_txns >=? match StateRule.transactions rule with
                                 | Some n => n | None => 0 end) then
        (total_revenue, total_txns, idx, Some "transactions"%string)
      else detect_loop rule (idx + 1) rest total_revenue total_txns
  end.

(** The state of the four variables after the [if rule.amount == 0] block. *)
Definition detect (rule : StateRule.t) (sorted_txns : list Transaction.t)
    : Q * Z * Z * option string :=
  if Qeq_bool (StateRule.amount rule) 0 then
    (sum (map Transaction.amount sorted_txns), len sorted_txns, -1, None)
  else detect_loop rule 0 sorted_txns 0%Q 0.

Definition threshold_pct (rule : StateRule.t) (total_revenue : Q) (total_txns : Z) : Q :=
  if Qgtb (StateRule.amount rule) 0 then
    let revenue_pct := ((total_revenue / StateRule.amount rule) * 100)%Q in
    let txn_pct :=
      match StateRule.transactions rule with
      | Some n =>
          if negb (n =? 0) && (n >? 0)
          then ((inject_Z total_txns / inject_Z n) * 100)%Q else 0%Q
      | None => 0%Q
      end in
    max revenue_pct txn_pct
  else 0%Q.

Definition _analyze_state (loader : ConfigLoader) (state_code : string)
    (transactions : list Transaction.t) (rule : StateRule.t)
    : option StateResult.t :=
  let sorted_txns := sorted transactions in
  let '(total_revenue, total_txns, breach_idx, breach_type) :=
    detect rule sorted_txns in
  let threshold_pct := threshold_pct rule total_revenue total_txns in
  let tax_rate := or_zero (get_tax_rate loader state_code) in
  let liability :=
    if breach_idx >=? 0 then
      let post_nexus_revenue :=
        sum (map Transaction.amount (slice_from sorted_txns breach_idx)) in
      (post_nexus_revenue * (tax_rate / 100))%Q
    else 0%Q in
  match (if breach_idx >=? 0
         then option_map Some (index sorted_txns breach_idx)
         else Some None) with
  | None => None
  | Some breach_txn =>
      Some (StateResult.mk state_code (breach_idx >=? 0) total_revenue total_txns
              (StateRule.amount rule) (StateRule.transactions rule) breach_type
              (option_map Transaction.date breach_txn)
              (option_map Transaction.id breach_txn)
              threshold_pct tax_rate liability)
  end.

(** The result appended for a current rule whose state was not processed. *)
Definition zero_activity (loader : ConfigLoader) (rule : StateRule.t) : StateResult.t :=
  let tax_rate := or_zero (get_tax_rate loader (StateRule.state_code rule)) in
  StateResult.mk (StateRule.state_code rule) false 0%Q 0
    (StateRule.amount rule) (StateRule.transactions rule) None None None
    0%Q tax_rate 0%Q.

(** The [for state_code, state_txns in by_state.items()] loop of [analyze]. *)
Fixpoint states_loop (loader : ConfigLoader) (today : date)
    (by_state : list (string * list Transaction.t))
    (state_results : list StateResult.t) (warnings : list string)
    : option (list StateResult.t * list string) :=
  match by_state with
  | [] => Some (state_results, warnings)
  | (state_code, state_txns) :: rest =>
      match get_rule_for_state loader today state_code with
      | None =>
          states_loop loader today rest state_results
            (warnings ++ [no_rule_warning state_code])
      | Some rule =>
          match _analyze_state loader state_code state_txns rule with
          | None => None
          | Some result =>
              states_loop loader today rest (state_results ++ [result]) warnings
          end
      end
  end.

(** The [for rule in all_rules] loop of [analyze]; [processed_states] is
    computed once, before the loop. *)
Fixpoint rules_loop (loader : ConfigLoader) (all_rules : list StateRule.t)
    (processed_states : list string) (state_results : list StateResult.t)
    : list StateResult.t :=
  match all_rules with
  | [] => state_results
  | rule :: rest =>
      if existsb (String.eqb (StateRule.state_code rule)) processed_states then
        rules_loop loader rest processed_states state_results
      else
        rules_loop loader rest processed_states
          (state_results ++ [zero_activity loader rule])
  end.

Definition analyze (loader : ConfigLoader) (today : date)
    (transactions : list Transaction.t) (year_opt : option Z)
    (ignore_marketplace include_negatives : bool) : option AnalysisResult.t :=
  let yr := match year_opt with Some y => y | None => year today end in
  let warnings := [] in
  let '(filtered, warnings) :=
    _filter_transactions transactions yr ignore_marketplace include_negatives
      warnings in
  let by_state := _group_by_state filtered in
  match states_loop loader today by_state [] warnings with
  | None => None
  | Some (state_results, warnings) =>
      let all_rules := get_current_rules loader today in
      let processed_states := map StateResult.state_code state_results in
      let state_results := rules_loop loader all_rules processed_states state_results in
      let total_liability := sum (map StateResult.estimated_liability state_results) in
      Some (AnalysisResult.mk state_results total_liability yr (len filtered) warnings)
  end.

(** ** Specification-level notions *)

(** Revenue accumulated by the loop after [k] more transactions of [l],
    from the value [rev]. *)
Definition revenue_after (rev : Q) (l : list Transaction.t) (k : nat) : Q :=
  fold_left Qplus (map Transaction.amount (firstn k l)) rev.

(** Cumulative revenue of the first [k] transactions of [l]. *)
Definition cumulative_revenue (l : list Transaction.t) (k : nat) : Q :=
  sum (map Transaction.amount (firstn k l)).

(** The two conditions of the loop at index [i], from accumulators
    [rev] and [cnt]. *)
Definition revenue_met (rule : StateRule.t) (rev : Q) (l : list Transaction.t)
    (i : nat) : bool :=
  Qgeb (revenue_after rev l (S i)) (StateRule.amount rule).

Definition count_met (rule : StateRule.t) (cnt : Z) (i : nat) : bool :=
  match StateRule.transactions rule with
  | Some n => negb (n =? 0) && (cnt + Z.of_nat (S i) >=? n)
  | None => false
  end.

Definition threshold_met (rule : StateRule.t) (rev : Q) (cnt : Z)
    (l : list Transaction.t) (i : nat) : bool :=
  revenue_met rule rev l i || count_met rule cnt i.

(** A breach occurs at index [i] of the sorted sequence [l]: the rule has a
    threshold, a condition holds at [i] and none holds before. *)
Definition breach_at (rule : StateRule.t) (l : list Transaction.t) (i : nat) : Prop :=
  Qeq_bool (StateRule.amount rule) 0 = false /\
  (i < List.length l)%nat /\
  threshold_met rule 0 0 l i = true /\
  forall j, (j < i)%nat -> threshold_met rule 0 0 l j = false.

(** No breach occurs on [l]. *)
Definition no_breach (rule : StateRule.t) (l : list Transaction.t) : Prop :=
  Qeq_bool (StateRule.amount rule) 0 = true \/
  forall j, (j < List.length l)%nat -> threshold_met rule 0 0 l j = false.

(** The label the loop gives to a breach at index [i]. *)
Definition breach_label (rule : StateRule.t) (rev : Q) (l : list Transaction.t)
    (i : nat) : string :=
  if revenue_met rule rev l i then "revenue"%string else "transactions"%string.

(** The transaction percentage as the specification words it. *)
Definition txn_pct_of (rule : StateRule.t) (total_transactions : Z) : Q :=
  match StateRule.transactions rule with
  | Some n =>
      if n >? 0 then ((inject_Z total_transactions / inject_Z n) * 100)%Q
      else 0%Q
  | None => 0%Q
  end.

(** [(t.date, t.id) <= (u.date, u.id)] on Python tuples. *)
Definition key_le (t u : Transaction.t) : Prop :=
  key_ltb (sort_key u) (sort_key t) = false.

(** The count condition holds at index [i] for the first time. *)
Definition count_reached_at (rule : StateRule.t) (i : nat) : Prop :=
  count_met rule 0 i = true /\
  forall j, (j < i)%nat -> count_met rule 0 j = false.

(** ** Example data *)

Definition ex_rule (amount : Q) (transactions : option Z) : StateRule.t :=
  StateRule.mk "" amount transactions (mkdate 2019 4 1) None "CA-2019-04" None.

Definition ex_loader : ConfigLoader :=
  mkConfigLoader
    [("CA"%string, ex_rule 100 (Some 2)); ("NY"%string, ex_rule 500 None);
     ("OR"%string, ex_rule 0 None)]
    [("CA"%string, TaxRateInfo.mk 7 1 10 2); ("NY"%string, TaxRateInfo.mk 4 4 8 5)].

Definition ex_today : date := mkdate 2024 12 31.

Definition ex_txn (id state_code : string) (amount : Q) : Transaction.t :=
  Transaction.mk id state_code amount (mkdate 2024 6 15) None.

(** Three sales in one state: the second one reaches a threshold of 100. *)
Definition ex_three : list Transaction.t :=
  [ex_txn "t1" "CA" 60; ex_txn "t2" "CA" 60; ex_txn "t3" "CA" 500].

(** Two sales on one day, given as "b" then "a". *)
Definition ex_b_a : list Transaction.t :=
  [ex_txn "b" "CA" 60; ex_txn "a" "CA" 60].

(** When a result says a breach happened: flag, type, date and id agree,
    and without a breach nothing is owed. *)
Definition consistent (r : StateResult.t) : Prop :=
  (StateResult.has_nexus r = true <-> StateResult.breach_type r <> None) /\
  (StateResult.has_nexus r = true <->
   StateResult.breach_date r <> None /\
   StateResult.breach_transaction_id r <> None) /\
  (StateResult.has_nexus r = false -> StateResult.estimated_liability r = 0%Q).

(** The four rules of the filter, for one transaction. *)
Definition passes (yr : Z) (ignore_marketplace include_negatives : bool)
    (txn : Transaction.t) : bool :=
  (year (Transaction.date txn) =? yr)
  && negb (ignore_marketplace && is_marketplace txn)
  && negb (negb include_negatives && Qltb (Transaction.amount txn) 0)
  && _is_valid_state_code (Transaction.state_code txn).

(** The transactions that reach the state-code check and fail it. *)
Definition invalid_code (yr : Z) (ignore_marketplace include_negatives : bool)
    (txn : Transaction.t) : bool :=
  (year (Transaction.date txn) =? yr)
  && negb (ignore_marketplace && is_marketplace txn)
  && negb (negb include_negatives && Qltb (Transaction.amount txn) 0)
  && negb (_is_valid_state_code (Transaction.state_code txn)).

Definition invalid_warnings (yr : Z) (ignore_marketplace include_negatives : bool)
    (transactions : list Transaction.t) : list string :=
  map (fun txn => invalid_state_warning (Transaction.state_code txn))
    (filter (invalid_code yr ignore_marketplace include_negatives) transactions).

(** The groups of [by_state] that have a current rule, with that rule. *)
Definition with_rule (loader : ConfigLoader) (today : date)
    (by_state : list (string * list Transaction.t))
    : list (string * list Transaction.t * StateRule.t) :=
  flat_map (fun kv =>
              match get_rule_for_state loader today (fst kv) with
              | Some rule => [(fst kv, snd kv, rule)]
              | None => []
              end) by_state.

(** The warnings of the groups of [by_state] without a current rule. *)
Definition no_rule_warnings (loader : ConfigLoader) (today : date)
    (by_state : list (string * list Transaction.t)) : list string :=
  flat_map (fun kv =>
              match get_rule_for_state loader today (fst kv) with
              | Some _ => []
              | None => [no_rule_warning (fst kv)]
              end) by_state.

(** [r] is the result of [_analyze_state] for the group [g] and its rule. *)
Definition analyzed (loader : ConfigLoader)
    (g : string * list Transaction.t * StateRule.t) (r : StateResult.t) : Prop :=
  _analyze_state loader (fst (fst g)) (snd (fst g)) (snd g) = Some r.

(** The current rules whose state is not among [processed_states]. *)
Definition unprocessed (all_rules : list StateRule.t)
    (processed_states : list string) : list StateRule.t :=
  filter (fun rule =>
            negb (existsb (String.eqb (StateRule.state_code rule)) processed_states))
    all_rules.


(** The transactions of [l] with state code [k], in the order of [l]. *)
Definition state_transactions (k : string) (l : list Transaction.t)
    : list Transaction.t :=
  filter (fun t => String.eqb (Transaction.state_code t) k) l.

(** Sales in two states with a rule and in one without. *)
Definition ex_sales : list Transaction.t :=
  [ex_txn "s1" "CA" 60; ex_txn "s2" "NY" 40; ex_txn "s3" "CA" 70;
   ex_txn "s4" "ZZ" 10].

(** The transaction threshold of a validated rule: absent or at least 1. *)
Definition valid_transactions (rule : StateRule.t) : Prop :=
  match StateRule.transactions rule with
  | Some n => 1 <= n
  | None => True
  end.

(** A rule with both thresholds. *)
Definition ex_rule_both : StateRule.t := ex_rule 100 (Some 2).

(** ** [config_loader.py]: the validators *)

(** [StateRulesConfig.validate_state_codes]: the [ValueError] of the first
    rule whose [state_code] is not its key, or the mapping itself. *)
Fixpoint state_code_mismatch (v : list (string * StateRule.t)) : option string :=
  match v with
  | [] => None
  | (state_code, rule) :: rest =>
      if negb (String.eqb (StateRule.state_code rule) state_code) then
        Some ("State code mismatch: key is " ++ state_code
              ++ " but rule.state_code is " ++ StateRule.state_code rule)%string
      else state_code_mismatch rest
  end.

Definition validate_state_codes (v : list (string * StateRule.t))
    : string + list (string * StateRule.t) :=
  match state_code_mismatch v with
  | Some msg => inl msg
  | None => inr v
  end.

(** [StateRule.end_date_must_be_after_effective]; [effective] is
    [values["effective_date"]] when the key is in [values]. *)
Definition end_date_must_be_after_effective (v : option date)
    (effective : option date) : string + option date :=
  match v, effective with
  | Some e, Some eff =>
      if date_leb e eff then inl "end_date must be after effective_date"%string
      else inr v
  | _, _ => inr v
  end.

(** ** [analyzer.py]: reading the state of a CSV row *)

(** The [mapping] of [_map_state_name]. *)
Definition state_names : list (string * string) :=
  [("ALABAMA", "AL"); ("ALASKA", "AK"); ("ARIZONA", "AZ"); ("ARKANSAS", "AR");
   ("CALIFORNIA", "CA"); ("COLORADO", "CO"); ("CONNECTICUT", "CT");
   ("DELAWARE", "DE"); ("FLORIDA", "FL"); ("GEORGIA", "GA"); ("HAWAII", "HI");
   ("IDAHO", "ID"); ("ILLINOIS", "IL"); ("INDIANA", "IN"); ("IOWA", "IA");
   ("KANSAS", "KS"); ("KENTUCKY", "KY"); ("LOUISIANA", "LA"); ("MAINE", "ME");
   ("MARYLAND", "MD"); ("MASSACHUSETTS", "MA"); ("MICHIGAN", "MI");
   ("MINNESOTA", "MN"); ("MISSISSIPPI", "MS"); ("MISSOURI", "MO");
   ("MONTANA", "MT"); ("NEBRASKA", "NE"); ("NEVADA", "NV");
   ("NEW HAMPSHIRE", "NH"); ("NEW JERSEY", "NJ"); ("NEW MEXICO", "NM");
   ("NEW YORK", "NY"); ("NORTH CAROLINA", "NC"); ("NORTH DAKOTA", "ND");
   ("OHIO", "OH"); ("OKLAHOMA", "OK"); ("OREGON", "OR"); ("PENNSYLVANIA", "PA");
   ("RHODE ISLAND", "RI"); ("SOUTH CAROLINA", "SC"); ("SOUTH DAKOTA", "SD");
   ("TENNESSEE", "TN"); ("TEXAS", "TX"); ("UTAH", "UT"); ("VERMONT", "VT");
   ("VIRGINIA", "VA"); ("WASHINGTON", "WA"); ("WEST VIRGINIA", "WV");
   ("WISCONSIN", "WI"); ("WYOMING", "WY"); ("DISTRICT OF COLUMBIA", "DC")]%string.

(** [mapping.get(name.upper(), name[:2])]. *)
Definition _map_state_name (name : string) : string :=
  match dict_get state_names (upper name) with
  | Some code => code
  | None => substring 0 2 name
  end.

(** White space of [str.strip] on ASCII: tab to carriage return, the four
    separators and the space. *)
Definition isspace_ascii (c : ascii) : bool :=
  let n := N_of_ascii c in
  (((9 <=? n) && (n <=? 13)) || ((28 <=? n) && (n <=? 32)))%N.

Fixpoint lstrip (s : string) : string :=
  match s with
  | EmptyString => EmptyString
  | String c s' => if isspace_ascii c then lstrip s' else s
  end.

Fixpoint rstrip (s : string) : string :=
  match s with
  | EmptyString => EmptyString
  | String c s' =>
      match rstrip s' with
      | EmptyString => if isspace_ascii c then EmptyString else String c EmptyString
      | r => String c r
      end
  end.

Definition strip (s : string) : string := rstrip (lstrip s).

(** The state code of a row of [load_csv], from [str(row["state"])]. *)
Definition parse_state_code (raw : string) : string :=
  let state_code := upper (strip raw) in
  if Z.of_nat (String.length state_code) >? 2 then _map_state_name state_code
  else state_code.

(** ** [analyzer.py]: the columns of the CSV file

    [df.columns] is the list of the column names; [df.rename] gives every
    column of the old name the new one. *)

Definition required_cols : list string := ["date"; "state"; "amount"]%string.

Definition col_mapping : list (string * list string) :=
  [("date", ["transaction_date"; "sale_date"; "order_date"]);
   ("state", ["state_code"; "State"; "STATE"]);
   ("amount", ["sale_amount"; "sales_amount"; "revenue"; "total"])]%string.

(** [col_mapping.get(col, [])]. *)
Definition alt_names (col : string) : list string :=
  match dict_get col_mapping col with
  | Some alts => alts
  | None => []
  end.

(** [name in df.columns]. *)
Definition has_column (columns : list string) (name : string) : bool :=
  existsb (String.eqb name) columns.

(** [df.rename(columns={alt_name: col}, inplace=True)]. *)
Definition rename (columns : list string) (alt_name col : string) : list string :=
  map (fun c => if String.eqb c alt_name then col else c) columns.

(** The [for alt_name in ...] loop: the first alternative that is a column. *)
Fixpoint first_alt (alts columns : list string) : option string :=
  match alts with
  | [] => None
  | alt_name :: rest =>
      if has_column columns alt_name then Some alt_name
      else first_alt rest columns
  end.

(** The [for col in missing_cols] loop: the message of the [ValueError], or
    the columns after the renamings. *)
Fixpoint missing_loop (missing_cols columns : list string) : string + list string :=
  match missing_cols with
  | [] => inr columns
  | col :: rest =>
      match first_alt (alt_names col) columns with
      | Some alt_name => missing_loop rest (rename columns alt_name col)
      | None => inl ("Missing required column: " ++ col)%string
      end
  end.

(** The check of the required columns in [load_csv]. *)
Definition resolve_columns (columns : list string) : string + list string :=
  let missing_cols :=
    filter (fun col => negb (has_column columns col)) required_cols in
  match missing_cols with
  | [] => inr columns
  | _ => missing_loop missing_cols columns
  end.

(** A required column is there under its name or under an alternative. *)
Definition resolvable (columns : list string) (col : string) : Prop :=
  In col columns \/ exists alt_name, In alt_name (alt_names col) /\ In alt_name columns.

(** ** The report: [export_excel] and the summary of [cli.py] *)








(** The codes of [l] that are not in [seen], each at its first occurrence. *)
Fixpoint first_seen (seen l : list string) : list string :=
  match l with
  | [] => []
  | k :: rest =>
      if existsb (String.eqb k) seen then first_seen seen rest
      else k :: first_seen (seen ++ [k]) rest
  end.

(** [get_rule_for_state] finds a rule for the code. *)
Definition has_rule (loader : ConfigLoader) (today : date) (k : string) : bool :=
  match get_rule_for_state loader today k with
  | Some _ => true
  | None => false
  end.

(** * Properties *)

(** ** Booleans of the comparisons *)

Lemma Qgeb_true (x y : Q) : Qgeb x y = true <-> (y <= x)%Q.
Proof. unfold Qgeb. apply Qle_bool_iff. Qed.

Lemma Qgeb_false (x y : Q) : Qgeb x y = false <-> (x < y)%Q.
Proof.
  unfold Qgeb. split; intro H.
  - apply Qnot_le_lt. intro Hle. apply Qle_bool_iff in Hle. congruence.
  - destruct (Qle_bool y x) eqn:E; [|reflexivity].
    apply Qle_bool_iff in E. exfalso. apply (Qlt_not_le _ _ H E).
Qed.

Lemma Qgtb_true (x y : Q) : Qgtb x y = true <-> (y < x)%Q.
Proof.
  unfold Qgtb. split; intro H.
  - apply (proj2 (Qgt_alt x y)). destruct (x ?= y)%Q; congruence.
  - apply (proj1 (Qgt_alt x y)) in H. rewrite H. reflexivity.
Qed.



(** ** The detection loop *)

Lemma count_met_shift (rule : StateRule.t) (cnt : Z) (i : nat) :
  count_met rule cnt (S i) = count_met rule (cnt + 1) i.
Proof.
  unfold count_met. destruct (StateRule.transactions rule) as [n|]; [|reflexivity].
  f_equal. f_equal. lia.
Qed.

Lemma threshold_met_shift (rule : StateRule.t) rev cnt txn l i :
  threshold_met rule rev cnt (txn :: l) (S i)
  = threshold_met rule (rev + Transaction.amount txn)%Q (cnt + 1) l i.
Proof.
  unfold threshold_met. rewrite count_met_shift. reflexivity.
Qed.

Lemma loop_count_test (rule : StateRule.t) (cnt : Z) :
  truthy (StateRule.transactions rule)
  && (cnt + 1 >=? match StateRule.transactions rule with
                  | Some n => n | None => 0 end)
  = count_met rule cnt 0.
Proof.
  unfold count_met, truthy.
  destruct (StateRule.transactions rule) as [n|]; reflexivity.
Qed.

Lemma revenue_after_cons rev txn l k :
  revenue_after rev (txn :: l) (S k)
  = revenue_after (rev + Transaction.amount txn)%Q l k.
Proof. reflexivity. Qed.

Lemma breach_label_cons (rule : StateRule.t) rev txn l i :
  breach_label rule rev (txn :: l) (S i)
  = breach_label rule (rev + Transaction.amount txn)%Q l i.
Proof. reflexivity. Qed.

Lemma detect_loop_breach (rule : StateRule.t) :
  forall l idx rev cnt i,
    (i < List.length l)%nat ->
    threshold_met rule rev cnt l i = true ->
    (forall j, (j < i)%nat -> threshold_met rule rev cnt l j = false) ->
    detect_loop rule idx l rev cnt
    = (revenue_after rev l (S i), cnt + Z.of_nat (S i), idx + Z.of_nat i,
       Some (breach_label rule rev l i)).
Proof.
  induction l as [|txn l IH]; intros idx rev cnt i Hi Hmet Hbefore.
  - simpl in Hi. lia.
  - destruct i as [|i].
    + unfold threshold_met, revenue_met, revenue_after in Hmet. simpl in Hmet.
      unfold breach_label, revenue_met, revenue_after. simpl.
      rewrite loop_count_test.
      destruct (Qgeb (rev + Transaction.amount txn) (StateRule.amount rule)) eqn:E.
      * rewrite Z.add_0_r. reflexivity.
      * simpl in Hmet. rewrite Hmet, Z.add_0_r. reflexivity.
    + assert (H0 : threshold_met rule rev cnt (txn :: l) 0 = false)
        by (apply Hbefore; lia).
      unfold threshold_met, revenue_met, revenue_after in H0. simpl in H0.
      apply orb_false_iff in H0. destruct H0 as [Hr Hc].
      cbn [detect_loop]. rewrite loop_count_test, Hr, Hc.
      rewrite threshold_met_shift in Hmet.
      rewrite (IH (idx + 1) (rev + Transaction.amount txn)%Q (cnt + 1) i).
      * rewrite revenue_after_cons, breach_label_cons.
        replace (cnt + 1 + Z.of_nat (S i)) with (cnt + Z.of_nat (S (S i))) by lia.
        replace (idx + 1 + Z.of_nat i) with (idx + Z.of_nat (S i)) by lia.
        reflexivity.
      * simpl in Hi. lia.
      * exact Hmet.
      * intros j Hj. rewrite <- threshold_met_shift. apply Hbefore. lia.
Qed.

Lemma detect_loop_no_breach (rule : StateRule.t) :
  forall l idx rev cnt,
    (forall j, (j < List.length l)%nat -> threshold_met rule rev cnt l j = false) ->
    detect_loop rule idx l rev cnt
    = (fold_left Qplus (map Transaction.amount l) rev, cnt + len l, -1, None).
Proof.
  induction l as [|txn l IH]; intros idx rev cnt Hnone.
  - simpl. unfold len. simpl. replace (cnt + 0) with cnt by lia. reflexivity.
  - assert (H0 : threshold_met rule rev cnt (txn :: l) 0 = false)
      by (apply Hnone; simpl; lia).
    unfold threshold_met, revenue_met, revenue_after in H0. simpl in H0.
    apply orb_false_iff in H0. destruct H0 as [Hr Hc].
    cbn [detect_loop]. rewrite loop_count_test, Hr, Hc.
    rewrite IH.
    + unfold len. simpl List.length.
      replace (cnt + 1 + Z.of_nat (List.length l))
        with (cnt + Z.of_nat (S (List.length l))) by lia.
      reflexivity.
    + intros j Hj. rewrite <- threshold_met_shift. apply Hnone. simpl. lia.
Qed.

(** Either a first index meets a threshold, or none does. *)
Lemma first_met_or_none (P : nat -> bool) (n : nat) :
  (exists i, (i < n)%nat /\ P i = true /\ forall j, (j < i)%nat -> P j = false)
  \/ (forall j, (j < n)%nat -> P j = false).
Proof.
  induction n as [|n IH].
  - right. intros j Hj. lia.
  - destruct IH as [(i & Hi & Hp & Hb) | Hnone].
    + left. exists i. repeat split; [lia | exact Hp | exact Hb].
    + destruct (P n) eqn:E.
      * left. exists n. repeat split; [lia | exact E | exact Hnone].
      * right. intros j Hj. destruct (Nat.eq_dec j n) as [->|Hne]; [exact E|].
        apply Hnone. lia.
Qed.

Lemma breach_or_not (rule : StateRule.t) (l : list Transaction.t) :
  (exists i, breach_at rule l i) \/ no_breach rule l.
Proof.
  unfold breach_at, no_breach.
  destruct (Qeq_bool (StateRule.amount rule) 0) eqn:E.
  - right. left. reflexivity.
  - destruct (first_met_or_none (threshold_met rule 0 0 l) (List.length l))
      as [(i & Hi & Hp & Hb) | Hnone].
    + left. exists i. repeat split; assumption.
    + right. right. exact Hnone.
Qed.

Lemma breach_excludes_no_breach (rule : StateRule.t) (l : list Transaction.t) (i : nat) :
  breach_at rule l i -> no_breach rule l -> False.
Proof.
  intros (Hz & Hi & Hmet & _) [Hz' | Hnone]; [congruence|].
  rewrite (Hnone i Hi) in Hmet. discriminate.
Qed.

Lemma breach_at_unique (rule : StateRule.t) (l : list Transaction.t) (i j : nat) :
  breach_at rule l i -> breach_at rule l j -> i = j.
Proof.
  intros (_ & _ & Hi & Hbi) (_ & _ & Hj & Hbj).
  destruct (Nat.lt_trichotomy i j) as [H | [H | H]]; [|exact H|].
  - rewrite (Hbj i H) in Hi. discriminate.
  - rewrite (Hbi j H) in Hj. discriminate.
Qed.

(** What [detect] leaves in the four variables. *)
Lemma detect_breach (rule : StateRule.t) (l : list Transaction.t) (i : nat) :
  breach_at rule l i ->
  detect rule l
  = (cumulative_revenue l (S i), Z.of_nat (S i), Z.of_nat i,
     Some (breach_label rule 0 l i)).
Proof.
  intros (Hz & Hi & Hmet & Hb). unfold detect. rewrite Hz.
  rewrite (detect_loop_breach rule l 0 0%Q 0 i Hi Hmet Hb). reflexivity.
Qed.

Lemma detect_no_breach (rule : StateRule.t) (l : list Transaction.t) :
  no_breach rule l ->
  detect rule l = (sum (map Transaction.amount l), len l, -1, None).
Proof.
  intros Hn. unfold detect.
  destruct (Qeq_bool (StateRule.amount rule) 0) eqn:E; [reflexivity|].
  destruct Hn as [Hz | Hnone]; [congruence|].
  rewrite (detect_loop_no_breach rule l 0 0%Q 0 Hnone). reflexivity.
Qed.

(** ** [_analyze_state] in the two cases *)

Lemma index_of_nat {A} (l : list A) (i : nat) :
  index l (Z.of_nat i) = nth_error l i.
Proof. unfold index. rewrite Nat2Z.id. reflexivity. Qed.

Lemma slice_from_of_nat {A} (l : list A) (i : nat) :
  slice_from l (Z.of_nat i) = skipn i l.
Proof. unfold slice_from. rewrite Nat2Z.id. reflexivity. Qed.

Lemma nth_error_in_range {A} (l : list A) (i : nat) :
  (i < List.length l)%nat -> exists x, nth_error l i = Some x.
Proof.
  intros Hi. destruct (nth_error l i) as [x|] eqn:E.
  - exists x. reflexivity.
  - apply nth_error_None in E. lia.
Qed.

Lemma analyze_state_breach loader state_code transactions rule i :
  breach_at rule (sorted transactions) i ->
  exists txn,
    nth_error (sorted transactions) i = Some txn /\
    _analyze_state loader state_code transactions rule
    = Some (StateResult.mk state_code true
              (cumulative_revenue (sorted transactions) (S i)) (Z.of_nat (S i))
              (StateRule.amount rule) (StateRule.transactions rule)
              (Some (breach_label rule 0 (sorted transactions) i))
              (Some (Transaction.date txn)) (Some (Transaction.id txn))
              (threshold_pct rule
                 (cumulative_revenue (sorted transactions) (S i))
                 (Z.of_nat (S i)))
              (or_zero (get_tax_rate loader state_code))
              (sum (map Transaction.amount (skipn i (sorted transactions)))
               * (or_zero (get_tax_rate loader state_code) / 100))%Q).
Proof.
  intros Hb.
  destruct (nth_error_in_range (sorted transactions) i) as [txn Htxn];
    [apply Hb|].
  exists txn. split; [exact Htxn|].
  unfold _analyze_state. rewrite (detect_breach _ _ _ Hb).
  assert (Hge : (Z.of_nat i >=? 0) = true) by (apply Z.geb_le; lia).
  rewrite Hge, index_of_nat, slice_from_of_nat, Htxn. reflexivity.
Qed.

Lemma analyze_state_no_breach loader state_code transactions rule :
  no_breach rule (sorted transactions) ->
  _analyze_state loader state_code transactions rule
  = Some (StateResult.mk state_code false
            (sum (map Transaction.amount (sorted transactions)))
            (len (sorted transactions))
            (StateRule.amount rule) (StateRule.transactions rule)
            None None None
            (threshold_pct rule
               (sum (map Transaction.amount (sorted transactions)))
               (len (sorted transactions)))
            (or_zero (get_tax_rate loader state_code)) 0%Q).
Proof.
  intros Hn. unfold _analyze_state. rewrite (detect_no_breach _ _ Hn).
  reflexivity.
Qed.

(** [_analyze_state] raises no [IndexError]. *)
Lemma analyze_state_total loader state_code transactions rule :
  exists r, _analyze_state loader state_code transactions rule = Some r.
Proof.
  destruct (breach_or_not rule (sorted transactions)) as [[i Hb] | Hn].
  - destruct (analyze_state_breach loader state_code transactions rule i Hb)
      as (txn & _ & H).
    eexists. exact H.
  - eexists. apply analyze_state_no_breach. exact Hn.
Qed.

Lemma positive_not_zero (a : Q) : (0 < a)%Q -> Qeq_bool a 0 = false.
Proof.
  intros Ha. destruct (Qeq_bool a 0) eqn:E; [|reflexivity].
  apply Qeq_bool_iff in E. rewrite E in Ha. exfalso. apply (Qlt_irrefl 0 Ha).
Qed.

Lemma threshold_pct_positive (rule : StateRule.t) (rev : Q) (cnt : Z) :
  (0 < StateRule.amount rule)%Q ->
  threshold_pct rule rev cnt
  = max ((rev / StateRule.amount rule) * 100)%Q (txn_pct_of rule cnt).
Proof.
  intros Ha. unfold threshold_pct, txn_pct_of.
  apply Qgtb_true in Ha. rewrite Ha.
  destruct (StateRule.transactions rule) as [n|]; [|reflexivity].
  destruct (n >? 0) eqn:E.
  - assert (Hn : (n =? 0) = false) by (apply Z.eqb_neq; apply Z.gtb_lt in E; lia).
    rewrite Hn. reflexivity.
  - rewrite andb_false_r. reflexivity.
Qed.

(** C1. For a rule with [amount > 0] the threshold percentage is
    [max(total_revenue / amount * 100, txn_pct)] of the totals the loop left:
    after a breach at index [i] these are the revenue and the count of the
    transactions up to and including the one at [i], and only without a
    breach those of the whole sequence. *)
Theorem threshold_percentage_of_loop_totals loader state_code transactions rule :
  (0 < StateRule.amount rule)%Q ->
  exists r,
    _analyze_state loader state_code transactions rule = Some r /\
    StateResult.threshold_percentage r
    = max ((StateResult.total_revenue r / StateRule.amount rule) * 100)%Q
          (txn_pct_of rule (StateResult.total_transactions r)) /\
    (forall i, breach_at rule (sorted transactions) i ->
       StateResult.total_revenue r
       = cumulative_revenue (sorted transactions) (S i) /\
       StateResult.total_transactions r = Z.of_nat i + 1) /\
    (no_breach rule (sorted transactions) ->
       StateResult.total_revenue r
       = sum (map Transaction.amount (sorted transactions)) /\
       StateResult.total_transactions r = len (sorted transactions)).
Proof.
  intros Ha.
  destruct (breach_or_not rule (sorted transactions)) as [[i Hb] | Hn].
  - destruct (analyze_state_breach loader state_code transactions rule i Hb)
      as (txn & _ & H).
    eexists. split; [exact H|]. cbn [StateResult.threshold_percentage
      StateResult.total_revenue StateResult.total_transactions].
    split; [apply threshold_pct_positive; exact Ha|]. split.
    + intros j Hj. rewrite (breach_at_unique _ _ _ _ Hj Hb).
      split; [reflexivity | lia].
    + intros Hn. destruct (breach_excludes_no_breach _ _ _ Hb Hn).
  - eexists. split; [apply analyze_state_no_breach; exact Hn|].
    cbn [StateResult.threshold_percentage
      StateResult.total_revenue StateResult.total_transactions].
    split; [apply threshold_pct_positive; exact Ha|]. split.
    + intros j Hj. destruct (breach_excludes_no_breach _ _ _ Hj Hn).
    + intros _. split; reflexivity.
Qed.

Lemma threshold_percentage_of_loop_totals_witness :
  exists r,
    _analyze_state ex_loader "CA" ex_three (ex_rule 100 None) = Some r /\
    StateResult.threshold_percentage r
    = max ((StateResult.total_revenue r / 100) * 100)%Q
          (txn_pct_of (ex_rule 100 None) (StateResult.total_transactions r)) /\
    (forall i, breach_at (ex_rule 100 None) (sorted ex_three) i ->
       StateResult.total_revenue r = cumulative_revenue (sorted ex_three) (S i) /\
       StateResult.total_transactions r = Z.of_nat i + 1) /\
    (no_breach (ex_rule 100 None) (sorted ex_three) ->
       StateResult.total_revenue r = sum (map Transaction.amount (sorted ex_three)) /\
       StateResult.total_transactions r = len (sorted ex_three)).
Proof.
  apply (threshold_percentage_of_loop_totals ex_loader "CA" ex_three (ex_rule 100 None)).
  reflexivity.
Defined.

(** The percentage of a breached state comes from the revenue up to the
    breach (120 of 620 here), not from the revenue of the year. *)
Example truncated_percentage :
  option_map (fun r => (StateResult.total_revenue r,
                        StateResult.threshold_percentage r))
    (_analyze_state ex_loader "CA" ex_three (ex_rule 100 None))
  = Some (120, 120.00)%Q /\
  sum (map Transaction.amount ex_three) = 620%Q.
Proof. split; reflexivity. Qed.

(** ** Simultaneous breaches *)

Lemma breach_index_exists (rule : StateRule.t) (l : list Transaction.t) (i : nat) :
  Qeq_bool (StateRule.amount rule) 0 = false ->
  (i < List.length l)%nat ->
  threshold_met rule 0 0 l i = true ->
  exists j, (j <= i)%nat /\ breach_at rule l j.
Proof.
  intros Hz Hi Hmet.
  destruct (breach_or_not rule l) as [[j Hb] | [Hz' | Hnone]].
  - exists j. split; [|exact Hb].
    destruct Hb as (_ & _ & _ & Hbefore).
    destruct (Nat.le_gt_cases j i) as [H | H]; [exact H|].
    rewrite (Hbefore i H) in Hmet. discriminate.
  - congruence.
  - rewrite (Hnone i Hi) in Hmet. discriminate.
Qed.

(** C2. When the cumulative revenue reaches [rule.amount] at the index at
    which the cumulative count reaches [rule.transactions], the breach is a
    revenue breach. *)
Theorem simultaneous_breach_is_revenue loader state_code transactions rule i :
  (0 < StateRule.amount rule)%Q ->
  (i < List.length (sorted transactions))%nat ->
  (StateRule.amount rule <= cumulative_revenue (sorted transactions) (S i))%Q ->
  count_reached_at rule i ->
  exists r,
    _analyze_state loader state_code transactions rule = Some r /\
    StateResult.has_nexus r = true /\
    StateResult.breach_type r = Some "revenue"%string.
Proof.
  intros Ha Hi Hrev [Hcnt Hfirst].
  assert (Hrm : revenue_met rule 0 (sorted transactions) i = true)
    by (apply Qgeb_true; exact Hrev).
  destruct (breach_index_exists rule (sorted transactions) i) as (j & Hji & Hb).
  - apply positive_not_zero. exact Ha.
  - exact Hi.
  - unfold threshold_met. rewrite Hrm. reflexivity.
  - destruct (analyze_state_breach loader state_code transactions rule j Hb)
      as (txn & _ & H).
    eexists. split; [exact H|]. split; [reflexivity|].
    cbn [StateResult.breach_type]. f_equal. unfold breach_label.
    destruct (revenue_met rule 0 (sorted transactions) j) eqn:E; [reflexivity|].
    exfalso. destruct Hb as (_ & _ & Hmet & _).
    unfold threshold_met in Hmet. rewrite E in Hmet. simpl in Hmet.
    destruct (Nat.eq_dec j i) as [->|Hne]; [congruence|].
    rewrite Hfirst in Hmet by lia. discriminate.
Qed.

Lemma simultaneous_breach_is_revenue_witness :
  exists r,
    _analyze_state ex_loader "CA" ex_three (ex_rule 100 (Some 2)) = Some r /\
    StateResult.has_nexus r = true /\
    StateResult.breach_type r = Some "revenue"%string.
Proof.
  apply (simultaneous_breach_is_revenue ex_loader "CA" ex_three
           (ex_rule 100 (Some 2)) 1%nat).
  - reflexivity.
  - vm_compute. lia.
  - vm_compute. discriminate.
  - split; [reflexivity|].
    intros j Hj. assert (j = 0%nat) as -> by lia. reflexivity.
Defined.

(** ** The sort *)

Lemma ascii_compare_lt_trans (a b c : ascii) :
  Ascii.compare a b = Lt -> Ascii.compare b c = Lt -> Ascii.compare a c = Lt.
Proof.
  unfold Ascii.compare. rewrite !N.compare_lt_iff. lia.
Qed.

Lemma ascii_compare_refl (a : ascii) : Ascii.compare a a = Eq.
Proof. unfold Ascii.compare. apply N.compare_refl. Qed.

Lemma string_compare_refl (s : string) : String.compare s s = Eq.
Proof.
  induction s as [|c s IH]; simpl; [reflexivity|].
  rewrite ascii_compare_refl. exact IH.
Qed.

Lemma string_compare_lt_trans :
  forall s1 s2 s3,
    String.compare s1 s2 = Lt -> String.compare s2 s3 = Lt ->
    String.compare s1 s3 = Lt.
Proof.
  induction s1 as [|c1 s1 IH]; intros [|c2 s2] [|c3 s3]; simpl;
    try congruence.
  destruct (Ascii.compare c1 c2) eqn:E12; try discriminate;
    destruct (Ascii.compare c2 c3) eqn:E23; try discriminate; intros H12 H23.
  - apply Ascii.compare_eq_iff in E12, E23. subst.
    rewrite ascii_compare_refl. eapply IH; eassumption.
  - apply Ascii.compare_eq_iff in E12. subst. rewrite E23. reflexivity.
  - apply Ascii.compare_eq_iff in E23. subst. rewrite E12. reflexivity.
  - rewrite (ascii_compare_lt_trans _ _ _ E12 E23). reflexivity.
Qed.

Lemma date_compare_eq (a b : date) : date_compare a b = Eq -> a = b.
Proof.
  unfold date_compare. destruct a as [y1 m1 d1], b as [y2 m2 d2]. simpl.
  destruct (y1 ?= y2) eqn:Ey; try discriminate.
  destruct (m1 ?= m2) eqn:Em; try discriminate.
  intros Ed. apply Z.compare_eq_iff in Ey, Em, Ed. subst. reflexivity.
Qed.

Lemma date_compare_refl (a : date) : date_compare a a = Eq.
Proof. unfold date_compare. rewrite !Z.compare_refl. reflexivity. Qed.

Lemma date_compare_antisym (a b : date) :
  date_compare b a = CompOpp (date_compare a b).
Proof.
  unfold date_compare.
  rewrite (Z.compare_antisym (year a) (year b)).
  rewrite (Z.compare_antisym (month a) (month b)).
  rewrite (Z.compare_antisym (day a) (day b)).
  destruct (year a ?= year b); simpl; try reflexivity.
  destruct (month a ?= month b); simpl; reflexivity.
Qed.

Lemma date_compare_lt_trans (a b c : date) :
  date_compare a b = Lt -> date_compare b c = Lt -> date_compare a c = Lt.
Proof.
  unfold date_compare.
  destruct (year a ?= year b) eqn:Eab; try discriminate;
    destruct (year b ?= year c) eqn:Ebc; try discriminate;
    try (apply Z.compare_eq_iff in Eab); try (apply Z.compare_eq_iff in Ebc);
    try (rewrite Z.compare_lt_iff in Eab); try (rewrite Z.compare_lt_iff in Ebc);
    intros Hab Hbc.
  - assert (Hy : (year a ?= year c) = Eq) by (apply Z.compare_eq_iff; lia).
    rewrite Hy.
    destruct (month a ?= month b) eqn:Mab; try discriminate;
      destruct (month b ?= month c) eqn:Mbc; try discriminate;
      try (apply Z.compare_eq_iff in Mab); try (apply Z.compare_eq_iff in Mbc);
      try (rewrite Z.compare_lt_iff in Mab); try (rewrite Z.compare_lt_iff in Mbc).
    + assert (Hm : (month a ?= month c) = Eq) by (apply Z.compare_eq_iff; lia).
      rewrite Hm. rewrite Z.compare_lt_iff in *. lia.
    + assert (Hm : (month a ?= month c) = Lt) by (apply Z.compare_lt_iff; lia).
      rewrite Hm. reflexivity.
    + assert (Hm : (month a ?= month c) = Lt) by (apply Z.compare_lt_iff; lia).
      rewrite Hm. reflexivity.
    + assert (Hm : (month a ?= month c) = Lt) by (apply Z.compare_lt_iff; lia).
      rewrite Hm. reflexivity.
  - assert (Hy : (year a ?= year c) = Lt) by (apply Z.compare_lt_iff; lia).
    rewrite Hy. reflexivity.
  - assert (Hy : (year a ?= year c) = Lt) by (apply Z.compare_lt_iff; lia).
    rewrite Hy. reflexivity.
  - assert (Hy : (year a ?= year c) = Lt) by (apply Z.compare_lt_iff; lia).
    rewrite Hy. reflexivity.
Qed.

(** [<] on keys is asymmetric, and its negation is transitive. *)
Lemma key_ltb_asym (a b : date * string) :
  key_ltb a b = true -> key_ltb b a = false.
Proof.
  unfold key_ltb, String.ltb. rewrite (date_compare_antisym (fst a) (fst b)).
  rewrite (String.compare_antisym (snd b) (snd a)).
  destruct (date_compare (fst a) (fst b)); simpl; try congruence.
  destruct (String.compare (snd a) (snd b)); simpl; congruence.
Qed.

Lemma key_ltb_trans (a b c : date * string) :
  key_ltb a b = true -> key_ltb b c = true -> key_ltb a c = true.
Proof.
  unfold key_ltb, String.ltb.
  destruct (date_compare (fst a) (fst b)) eqn:Eab; try discriminate;
    destruct (date_compare (fst b) (fst c)) eqn:Ebc; try discriminate.
  - apply date_compare_eq in Eab, Ebc. rewrite Eab, Ebc, date_compare_refl.
    destruct (String.compare (snd a) (snd b)) eqn:Sab; try discriminate.
    destruct (String.compare (snd b) (snd c)) eqn:Sbc; try discriminate.
    rewrite (string_compare_lt_trans _ _ _ Sab Sbc). reflexivity.
  - apply date_compare_eq in Eab. rewrite Eab, Ebc. reflexivity.
  - apply date_compare_eq in Ebc. rewrite <- Ebc, Eab. reflexivity.
  - rewrite (date_compare_lt_trans _ _ _ Eab Ebc). reflexivity.
Qed.

Lemma key_ltb_total (a b : date * string) :
  key_ltb a b = false -> key_ltb b a = false -> a = b.
Proof.
  unfold key_ltb, String.ltb. rewrite (date_compare_antisym (fst a) (fst b)).
  rewrite (String.compare_antisym (snd b) (snd a)).
  destruct (date_compare (fst a) (fst b)) eqn:Ed; simpl; try congruence.
  destruct (String.compare (snd a) (snd b)) eqn:Es; simpl; try congruence.
  intros _ _. apply date_compare_eq in Ed. apply String.compare_eq_iff in Es.
  destruct a, b. simpl in *. congruence.
Qed.

Lemma key_le_trans (t u v : Transaction.t) :
  key_le t u -> key_le u v -> key_le t v.
Proof.
  unfold key_le. intros Htu Huv.
  destruct (key_ltb (sort_key v) (sort_key t)) eqn:Evt; [|reflexivity].
  destruct (key_ltb (sort_key t) (sort_key u)) eqn:Etu.
  - rewrite (key_ltb_trans _ _ _ Evt Etu) in Huv. discriminate.
  - rewrite <- (key_ltb_total _ _ Htu Etu) in Evt. congruence.
Qed.

Lemma insert_perm (x : Transaction.t) (l : list Transaction.t) :
  Permutation (insert x l) (x :: l).
Proof.
  induction l as [|y l IH]; simpl; [reflexivity|].
  destruct (key_ltb (sort_key y) (sort_key x)); [|reflexivity].
  rewrite IH. apply perm_swap.
Qed.

Lemma sorted_perm (l : list Transaction.t) : Permutation (sorted l) l.
Proof.
  induction l as [|x l IH]; simpl; [reflexivity|].
  rewrite insert_perm. apply perm_skip. exact IH.
Qed.

Lemma sorted_length (l : list Transaction.t) :
  List.length (sorted l) = List.length l.
Proof. apply Permutation_length. apply sorted_perm. Qed.

Lemma insert_sorted (x : Transaction.t) (l : list Transaction.t) :
  StronglySorted key_le l -> StronglySorted key_le (insert x l).
Proof.
  induction 1 as [|y l Hs IH Hall]; simpl.
  - constructor; constructor.
  - destruct (key_ltb (sort_key y) (sort_key x)) eqn:E.
    + constructor; [exact IH|].
      rewrite insert_perm. constructor; [|exact Hall].
      unfold key_le. apply key_ltb_asym. exact E.
    + constructor; [constructor; assumption|].
      constructor; [exact E|].
      eapply Forall_impl; [|exact Hall].
      intros z Hz. eapply key_le_trans; [exact E | exact Hz].
Qed.

Lemma sorted_sorted (l : list Transaction.t) : StronglySorted key_le (sorted l).
Proof.
  induction l as [|x l IH]; simpl; [constructor|].
  apply insert_sorted. exact IH.
Qed.

(** The order of the keys, spelled out: the earlier date first, and on one
    date the id that is not larger as a string. *)
Lemma key_le_iff (t u : Transaction.t) :
  key_le t u <->
  date_ltb (Transaction.date t) (Transaction.date u) = true \/
  (Transaction.date t = Transaction.date u /\
   String.leb (Transaction.id t) (Transaction.id u) = true).
Proof.
  unfold key_le, key_ltb, sort_key, date_ltb, String.leb, String.ltb. simpl.
  rewrite (date_compare_antisym (Transaction.date t) (Transaction.date u)).
  rewrite (String.compare_antisym (Transaction.id t) (Transaction.id u)).
  destruct (date_compare (Transaction.date t) (Transaction.date u)) eqn:Ed; simpl.
  - apply date_compare_eq in Ed.
    destruct (String.compare (Transaction.id u) (Transaction.id t)); simpl;
      split; intros H; try reflexivity; try discriminate; auto;
      destruct H as [H | [_ H]]; discriminate.
  - split; auto.
  - split; [discriminate|].
    intros [H | [H _]]; [discriminate|].
    rewrite H, date_compare_refl in Ed. discriminate.
Qed.

(** C3. The transactions of a state are processed in ascending order of
    [(date, id)], the ids compared as strings; "b" then "a" on one day are
    processed as "a" then "b"; and the breach transaction is the one at the
    breach index of that order. *)
Theorem transactions_processed_in_key_order loader state_code transactions rule :
  Permutation (sorted transactions) transactions /\
  StronglySorted key_le (sorted transactions) /\
  (forall t u,
     key_le t u <->
     date_ltb (Transaction.date t) (Transaction.date u) = true \/
     (Transaction.date t = Transaction.date u /\
      String.leb (Transaction.id t) (Transaction.id u) = true)) /\
  String.ltb "10" "9" = true /\
  (forall tb ta,
     Transaction.date tb = Transaction.date ta ->
     Transaction.id tb = "b"%string -> Transaction.id ta = "a"%string ->
     sorted [tb; ta] = [ta; tb]) /\
  (forall i, breach_at rule (sorted transactions) i ->
     exists r txn,
       _analyze_state loader state_code transactions rule = Some r /\
       nth_error (sorted transactions) i = Some txn /\
       StateResult.breach_transaction_id r = Some (Transaction.id txn) /\
       StateResult.breach_date r = Some (Transaction.date txn)) /\
  option_map StateResult.breach_transaction_id
    (_analyze_state ex_loader "CA" ex_b_a (ex_rule 100 None))
  = Some (Some "b"%string).
Proof.
  split; [apply sorted_perm|].
  split; [apply sorted_sorted|].
  split; [apply key_le_iff|].
  split; [reflexivity|].
  split.
  { intros tb ta Hd Hb Ha. unfold sorted. simpl.
    unfold key_ltb, sort_key. simpl.
    rewrite Hd, date_compare_refl, Ha, Hb. reflexivity. }
  split; [|reflexivity].
  intros i Hb.
  destruct (analyze_state_breach loader state_code transactions rule i Hb)
    as (txn & Htxn & H).
  eexists. exists txn. split; [exact H|]. split; [exact Htxn|].
  split; reflexivity.
Qed.

(** ** Rules without a threshold *)

Lemma zero_amount_no_breach (rule : StateRule.t) (l : list Transaction.t) :
  (StateRule.amount rule == 0)%Q -> no_breach rule l.
Proof. intros Hz. left. apply Qeq_bool_iff. exact Hz. Qed.

Lemma threshold_pct_zero_amount (rule : StateRule.t) (rev : Q) (cnt : Z) :
  (StateRule.amount rule == 0)%Q -> threshold_pct rule rev cnt = 0%Q.
Proof.
  intros Hz. unfold threshold_pct.
  destruct (Qgtb (StateRule.amount rule) 0) eqn:E; [|reflexivity].
  apply Qgtb_true in E. rewrite Hz in E. destruct (Qlt_irrefl 0 E).
Qed.

(** C4. A rule with [amount == 0] gives no nexus, no breach type, a
    percentage of 0 and the revenue and count of all the transactions of the
    state, whatever the transactions are. *)
Theorem zero_threshold_never_breaches loader state_code transactions rule :
  (StateRule.amount rule == 0)%Q ->
  exists r,
    _analyze_state loader state_code transactions rule = Some r /\
    StateResult.has_nexus r = false /\
    StateResult.breach_type r = None /\
    StateResult.threshold_percentage r = 0%Q /\
    StateResult.total_revenue r
    = sum (map Transaction.amount (sorted transactions)) /\
    Permutation (sorted transactions) transactions /\
    StateResult.total_transactions r = len transactions.
Proof.
  intros Hz. eexists.
  split; [apply analyze_state_no_breach, zero_amount_no_breach; exact Hz|].
  cbn [StateResult.has_nexus StateResult.breach_type
       StateResult.threshold_percentage StateResult.total_revenue
       StateResult.total_transactions].
  split; [reflexivity|]. split; [reflexivity|].
  split; [apply threshold_pct_zero_amount; exact Hz|].
  split; [reflexivity|]. split; [apply sorted_perm|].
  unfold len. rewrite sorted_length. reflexivity.
Qed.

Lemma zero_threshold_never_breaches_witness :
  exists r,
    _analyze_state ex_loader "OR" ex_three (ex_rule 0 (Some 2)) = Some r /\
    StateResult.has_nexus r = false /\
    StateResult.breach_type r = None /\
    StateResult.threshold_percentage r = 0%Q /\
    StateResult.total_revenue r = sum (map Transaction.amount (sorted ex_three)) /\
    Permutation (sorted ex_three) ex_three /\
    StateResult.total_transactions r = len ex_three.
Proof.
  apply (zero_threshold_never_breaches ex_loader "OR" ex_three (ex_rule 0 (Some 2))).
  reflexivity.
Defined.

(** ** Liability *)

(** C5. After a breach at index [i] the liability is the revenue from the
    transaction at [i] to the end of the sorted sequence times
    [tax_rate / 100]; without a breach it is 0; a state without a tax rate
    gets the rate 0 and a result all the same. *)
Theorem liability_from_breach_to_end loader state_code transactions rule :
  exists r,
    _analyze_state loader state_code transactions rule = Some r /\
    (forall i, breach_at rule (sorted transactions) i ->
       StateResult.has_nexus r = true /\
       StateResult.estimated_liability r
       = (sum (map Transaction.amount (skipn i (sorted transactions)))
          * (StateResult.tax_rate r / 100))%Q) /\
    (no_breach rule (sorted transactions) ->
       StateResult.has_nexus r = false /\
       StateResult.estimated_liability r = 0%Q) /\
    StateResult.tax_rate r = or_zero (get_tax_rate loader state_code) /\
    (get_tax_rate loader state_code = None -> StateResult.tax_rate r = 0%Q).
Proof.
  destruct (breach_or_not rule (sorted transactions)) as [[i Hb] | Hn].
  - destruct (analyze_state_breach loader state_code transactions rule i Hb)
      as (txn & _ & H).
    eexists. split; [exact H|].
    cbn [StateResult.has_nexus StateResult.estimated_liability StateResult.tax_rate].
    split; [|split; [|split]].
    + intros j Hj. rewrite (breach_at_unique _ _ _ _ Hj Hb). split; reflexivity.
    + intros Hn. destruct (breach_excludes_no_breach _ _ _ Hb Hn).
    + reflexivity.
    + intros Hnone. rewrite Hnone. reflexivity.
  - eexists. split; [apply analyze_state_no_breach; exact Hn|].
    cbn [StateResult.has_nexus StateResult.estimated_liability StateResult.tax_rate].
    split; [|split; [|split]].
    + intros j Hj. destruct (breach_excludes_no_breach _ _ _ Hj Hn).
    + intros _. split; reflexivity.
    + reflexivity.
    + intros Hnone. rewrite Hnone. reflexivity.
Qed.

(** A breach, a missing rate: the result is there and owes nothing. *)
Example liability_without_rate :
  get_tax_rate ex_loader "OR" = None /\
  exists r,
    _analyze_state ex_loader "OR" ex_three (ex_rule 100 None) = Some r /\
    StateResult.has_nexus r = true /\
    StateResult.tax_rate r = 0%Q /\
    (StateResult.estimated_liability r == 0)%Q.
Proof.
  split; [reflexivity|]. eexists. split; [reflexivity|].
  repeat split; reflexivity.
Qed.

(** ** Consistency of one result *)

Lemma analyze_state_consistent loader state_code transactions rule r :
  _analyze_state loader state_code transactions rule = Some r -> consistent r.
Proof.
  intros Hr.
  destruct (breach_or_not rule (sorted transactions)) as [[i Hb] | Hn].
  - destruct (analyze_state_breach loader state_code transactions rule i Hb)
      as (txn & _ & H).
    rewrite H in Hr. injection Hr as <-. unfold consistent. simpl.
    repeat split; intros; try discriminate; try reflexivity.
  - rewrite (analyze_state_no_breach _ _ _ _ Hn) in Hr. injection Hr as <-.
    unfold consistent. simpl.
    repeat split; intros; try discriminate; try reflexivity;
      try congruence; try tauto.
Qed.

Lemma zero_activity_consistent loader rule : consistent (zero_activity loader rule).
Proof.
  unfold consistent, zero_activity. simpl.
  repeat split; intros; try discriminate; try reflexivity;
    try congruence; try tauto.
Qed.

Lemma analyze_state_state_code loader state_code transactions rule r :
  _analyze_state loader state_code transactions rule = Some r ->
  StateResult.state_code r = state_code.
Proof.
  intros Hr.
  destruct (breach_or_not rule (sorted transactions)) as [[i Hb] | Hn].
  - destruct (analyze_state_breach loader state_code transactions rule i Hb)
      as (txn & _ & H).
    rewrite H in Hr. injection Hr as <-. reflexivity.
  - rewrite (analyze_state_no_breach _ _ _ _ Hn) in Hr. injection Hr as <-.
    reflexivity.
Qed.

(** ** The two loops of [analyze] *)

Lemma states_loop_spec loader today :
  forall by_state state_results warnings,
  exists results,
    states_loop loader today by_state state_results warnings
    = Some (state_results ++ results,
            warnings ++ no_rule_warnings loader today by_state) /\
    Forall2 (analyzed loader) (with_rule loader today by_state) results.
Proof.
  induction by_state as [|[state_code state_txns] rest IH];
    intros state_results warnings.
  - exists []. simpl. rewrite !app_nil_r. split; [reflexivity | constructor].
  - unfold with_rule, no_rule_warnings. cbn [states_loop flat_map fst snd].
    destruct (get_rule_for_state loader today state_code) as [rule|].
    + destruct (analyze_state_total loader state_code state_txns rule) as [r Hr].
      rewrite Hr.
      destruct (IH (state_results ++ [r]) warnings) as (results & Hloop & Hall).
      exists (r :: results). rewrite Hloop, <- app_assoc. split; [reflexivity|].
      simpl. constructor; [exact Hr | exact Hall].
    + destruct (IH state_results (warnings ++ [no_rule_warning state_code]))
        as (results & Hloop & Hall).
      exists results. rewrite Hloop, <- app_assoc. split; [reflexivity|].
      exact Hall.
Qed.

Lemma rules_loop_spec loader processed_states :
  forall all_rules state_results,
    rules_loop loader all_rules processed_states state_results
    = state_results
      ++ map (zero_activity loader) (unprocessed all_rules processed_states).
Proof.
  induction all_rules as [|rule rest IH]; intros state_results.
  - simpl. rewrite app_nil_r. reflexivity.
  - unfold unprocessed. cbn [rules_loop filter].
    destruct (existsb (String.eqb (StateRule.state_code rule)) processed_states).
    + simpl. apply IH.
    + simpl. rewrite IH, <- app_assoc. reflexivity.
Qed.

(** ** The filter *)

Lemma filter_loop_spec yr ignore_marketplace include_negatives :
  forall transactions filtered warnings,
    filter_loop transactions yr ignore_marketplace include_negatives
      filtered warnings
    = (filtered
       ++ filter (passes yr ignore_marketplace include_negatives) transactions,
       warnings
       ++ invalid_warnings yr ignore_marketplace include_negatives transactions).
Proof.
  induction transactions as [|txn rest IH]; intros filtered warnings.
  - simpl. unfold invalid_warnings. simpl. rewrite !app_nil_r. reflexivity.
  - unfold invalid_warnings, passes, invalid_code in *.
    cbn [filter_loop filter map].
    destruct (year (Transaction.date txn) =? yr); cbn [negb andb];
      [|apply IH].
    destruct (ignore_marketplace && is_marketplace txn); cbn [negb andb];
      [apply IH|].
    destruct (negb include_negatives && Qltb (Transaction.amount txn) 0);
      cbn [negb andb]; [apply IH|].
    destruct (_is_valid_state_code (Transaction.state_code txn));
      cbn [negb andb map]; rewrite IH, <- app_assoc; reflexivity.
Qed.

Lemma filter_transactions_spec transactions yr ignore_marketplace
    include_negatives warnings :
  _filter_transactions transactions yr ignore_marketplace include_negatives
    warnings
  = (filter (passes yr ignore_marketplace include_negatives) transactions,
     warnings
     ++ invalid_warnings yr ignore_marketplace include_negatives transactions
     ++ (let filtered_count :=
           len transactions
           - len (filter (passes yr ignore_marketplace include_negatives)
                    transactions) in
         if ignore_marketplace && (filtered_count >? 0)
         then [filtered_out_warning filtered_count] else [])).
Proof.
  unfold _filter_transactions. rewrite filter_loop_spec. cbn [app].
  destruct ignore_marketplace; cbn [andb].
  - destruct (_ >? 0); [rewrite <- app_assoc|rewrite app_nil_r]; reflexivity.
  - rewrite app_nil_r. reflexivity.
Qed.

Lemma invalid_warning_not_filtered_out (code : string) (m : Z) :
  invalid_state_warning code <> filtered_out_warning m.
Proof. unfold invalid_state_warning, filtered_out_warning. simpl. discriminate. Qed.

Lemma filter_split_length {A} (f : A -> bool) (l : list A) :
  len l - len (filter f l) = len (filter (fun x => negb (f x)) l).
Proof.
  assert (H : List.length l
              = (List.length (filter f l)
                 + List.length (filter (fun x => negb (f x)) l))%nat).
  { induction l as [|x l IH]; simpl; [reflexivity|].
    destruct (f x); simpl; lia. }
  unfold len. lia.
Qed.

(** C9. With [ignore_marketplace] set and [N > 0] transactions removed, by
    whichever rule, the filter appends the warning about [N] marketplace
    transactions once, after the warnings about state codes; otherwise it
    appends no such warning. *)
Theorem marketplace_warning_counts_all_drops transactions yr ignore_marketplace
    include_negatives warnings :
  let kept := filter (passes yr ignore_marketplace include_negatives) transactions in
  let n := len transactions - len kept in
  exists invalid,
    _filter_transactions transactions yr ignore_marketplace include_negatives
      warnings
    = (kept,
       warnings ++ invalid
       ++ (if ignore_marketplace && (n >? 0) then [filtered_out_warning n]
           else [])) /\
    (forall m, ~ In (filtered_out_warning m) invalid) /\
    n = len (filter (fun txn =>
                       negb (passes yr ignore_marketplace include_negatives txn))
               transactions).
Proof.
  intros kept n.
  exists (invalid_warnings yr ignore_marketplace include_negatives transactions).
  split; [apply filter_transactions_spec|]. split.
  - intros m Hin. unfold invalid_warnings in Hin.
    apply in_map_iff in Hin. destruct Hin as (txn & Heq & _).
    exact (invalid_warning_not_filtered_out _ _ Heq).
  - apply filter_split_length.
Qed.

(** Ten sales of which three are marketplace sales and one is refused for
    its amount: the warning counts four. *)
Example marketplace_warning_of_four :
  let sale i t a := Transaction.mk i "CA"%string a (mkdate 2024 3 1) t in
  let m := Some "marketplace"%string in
  snd (_filter_transactions
         [sale "1"%string None 5%Q; sale "2"%string m 5%Q;
          sale "3"%string None 5%Q; sale "4"%string m 5%Q;
          sale "5"%string None (-5)%Q; sale "6"%string None 5%Q;
          sale "7"%string m 5%Q; sale "8"%string None 5%Q;
          sale "9"%string None 5%Q; sale "10"%string None 5%Q]
         2024 true false [])
  = ["Filtered out 4 marketplace transactions"%string].
Proof. reflexivity. Qed.

(** ** [analyze] as a whole *)

Lemma analyze_spec loader today transactions year_opt ignore_marketplace
    include_negatives :
  let yr := match year_opt with Some y => y | None => year today end in
  let filtered :=
    filter (passes yr ignore_marketplace include_negatives) transactions in
  let by_state := _group_by_state filtered in
  exists results warnings,
    Forall2 (analyzed loader) (with_rule loader today by_state) results /\
    analyze loader today transactions year_opt ignore_marketplace
      include_negatives
    = Some (AnalysisResult.mk
              (results
               ++ map (zero_activity loader)
                    (unprocessed (get_current_rules loader today)
                       (map StateResult.state_code results)))
              (sum (map StateResult.estimated_liability
                      (results
                       ++ map (zero_activity loader)
                            (unprocessed (get_current_rules loader today)
                               (map StateResult.state_code results)))))
              yr (len filtered) warnings).
Proof.
  intros yr filtered by_state. unfold analyze.
  fold yr. rewrite filter_transactions_spec. fold filtered. fold by_state.
  match goal with
  | |- context [states_loop loader today by_state [] ?w] =>
      destruct (states_loop_spec loader today by_state [] w)
        as (results & Hloop & Hall)
  end.
  exists results. eexists. split; [exact Hall|].
  rewrite Hloop. cbn [app]. rewrite rules_loop_spec. reflexivity.
Qed.

(** C6. The total liability of an analysis is the sum of the liabilities
    of its state results, and its transaction count is the number of
    transactions that pass the filter. *)
Theorem totals_of_analysis loader today transactions year_opt
    ignore_marketplace include_negatives :
  exists res,
    analyze loader today transactions year_opt ignore_marketplace
      include_negatives = Some res /\
    AnalysisResult.total_liability res
    = sum (map StateResult.estimated_liability (AnalysisResult.state_results res)) /\
    AnalysisResult.transaction_count res
    = len (filter (passes (AnalysisResult.analysis_year res) ignore_marketplace
                     include_negatives) transactions) /\
    AnalysisResult.analysis_year res
    = match year_opt with Some y => y | None => year today end.
Proof.
  destruct (analyze_spec loader today transactions year_opt ignore_marketplace
              include_negatives) as (results & warnings & _ & H).
  eexists. split; [exact H|]. repeat split; reflexivity.
Qed.

(** Of three sales, one of another year: the count is two. *)
Example count_after_filter :
  option_map AnalysisResult.transaction_count
    (analyze ex_loader ex_today
       [ex_txn "t1" "CA" 10; ex_txn "t2" "NY" 10;
        Transaction.mk "t3" "CA" 10 (mkdate 2023 6 15) None]
       (Some 2024) false false)
  = Some 2.
Proof. reflexivity. Qed.

(** C10. In every state result of an analysis, the nexus flag, the breach
    type, and the breach date and id are present together or absent
    together, and a result without nexus has liability 0. *)
Theorem state_results_consistent loader today transactions year_opt
    ignore_marketplace include_negatives :
  exists res,
    analyze loader today transactions year_opt ignore_marketplace
      include_negatives = Some res /\
    Forall consistent (AnalysisResult.state_results res).
Proof.
  destruct (analyze_spec loader today transactions year_opt ignore_marketplace
              include_negatives) as (results & warnings & Hall & H).
  eexists. split; [exact H|]. cbn [AnalysisResult.state_results].
  apply Forall_app. split.
  - clear H. induction Hall as [|g r gs rs Hr _ IH]; constructor; [|exact IH].
    unfold analyzed in Hr. eapply analyze_state_consistent. exact Hr.
  - apply Forall_forall. intros r Hin. apply in_map_iff in Hin.
    destruct Hin as (rule & <- & _). apply zero_activity_consistent.
Qed.

(** ** Bounds on the liability *)

(** Adding amounts that are not negative does not lower a running total. *)
Lemma fold_plus_ge_acc (xs : list Q) :
  Forall (fun x => 0 <= x)%Q xs ->
  forall a, (a <= fold_left Qplus xs a)%Q.
Proof.
  induction 1 as [|x xs Hx _ IH]; intros a; simpl.
  - apply Qle_refl.
  - apply Qle_trans with (a + x)%Q; [|apply IH].
    rewrite <- (Qplus_0_r a) at 1. apply Qplus_le_compat; [apply Qle_refl | exact Hx].
Qed.






Lemma dict_get_in {V} (d : list (string * V)) (k : string) (v : V) :
  dict_get d k = Some v -> In (k, v) d.
Proof.
  induction d as [|[k' v'] d IH]; simpl; [discriminate|].
  destruct (String.eqb_spec k k') as [->|Hne].
  - intros [= ->]. left. reflexivity.
  - intros H. right. apply IH. exact H.
Qed.


Lemma amounts_nonneg_sorted (transactions : list Transaction.t) :
  Forall (fun t => 0 <= Transaction.amount t)%Q transactions ->
  Forall (fun x => 0 <= x)%Q (map Transaction.amount (sorted transactions)).
Proof.
  intros H. apply Forall_map.
  rewrite Forall_forall in *. intros t Hin. apply H.
  eapply Permutation_in; [apply sorted_perm | exact Hin].
Qed.





(** ** Grouping by state *)

Lemma dict_append_get by_state k txn k' :
  dict_get (dict_append by_state k txn) k'
  = if String.eqb k' k
    then Some (match dict_get by_state k with
               | Some l => l ++ [txn]
               | None => [txn]
               end)
    else dict_get by_state k'.
Proof.
  induction by_state as [|[k0 l0] rest IH]; simpl.
  - destruct (String.eqb k' k); reflexivity.
  - destruct (String.eqb_spec k k0) as [->|Hk]; simpl.
    + destruct (String.eqb k' k0); reflexivity.
    + destruct (String.eqb_spec k' k0) as [->|Hk'].
      * destruct (String.eqb_spec k0 k) as [Heq|_]; [congruence | reflexivity].
      * exact IH.
Qed.

Lemma dict_append_keys by_state k txn :
  dict_keys (dict_append by_state k txn)
  = if existsb (String.eqb k) (dict_keys by_state)
    then dict_keys by_state else dict_keys by_state ++ [k].
Proof.
  unfold dict_keys. induction by_state as [|[k0 l0] rest IH]; simpl.
  - reflexivity.
  - destruct (String.eqb k k0); simpl; [reflexivity|].
    rewrite IH. destruct (existsb (String.eqb k) (map fst rest)); reflexivity.
Qed.

Lemma existsb_eqb_in (k : string) (l : list string) :
  existsb (String.eqb k) l = true <-> In k l.
Proof.
  rewrite existsb_exists. split.
  - intros (x & Hin & Heq). apply String.eqb_eq in Heq. subst. exact Hin.
  - intros Hin. exists k. split; [exact Hin | apply String.eqb_refl].
Qed.

Lemma group_by_state_snoc l txn :
  _group_by_state (l ++ [txn])
  = dict_append (_group_by_state l) (Transaction.state_code txn) txn.
Proof. unfold _group_by_state. rewrite fold_left_app. reflexivity. Qed.

Lemma group_by_state_keys_nodup l : NoDup (dict_keys (_group_by_state l)).
Proof.
  induction l as [|txn l IH] using rev_ind.
  - constructor.
  - rewrite group_by_state_snoc, dict_append_keys.
    destruct (existsb (String.eqb (Transaction.state_code txn))
                (dict_keys (_group_by_state l))) eqn:E; [exact IH|].
    apply NoDup_app; [exact IH | repeat constructor; intros [] |].
    intros k Hin [<- | []].
    apply existsb_eqb_in in Hin. congruence.
Qed.

Lemma group_by_state_get l k :
  dict_get (_group_by_state l) k
  = match state_transactions k l with
    | [] => None
    | g => Some g
    end.
Proof.
  induction l as [|txn l IH] using rev_ind.
  - reflexivity.
  - rewrite group_by_state_snoc, dict_append_get.
    unfold state_transactions in *. rewrite filter_app. simpl.
    rewrite (String.eqb_sym k (Transaction.state_code txn)).
    destruct (String.eqb_spec (Transaction.state_code txn) k) as [->|Hne].
    + rewrite IH. destruct (filter _ l); reflexivity.
    + rewrite app_nil_r. exact IH.
Qed.

Lemma dict_get_none_not_key {V} (d : list (string * V)) (k : string) :
  dict_get d k = None <-> ~ In k (dict_keys d).
Proof.
  unfold dict_keys. induction d as [|[k' v] d IH]; simpl.
  - tauto.
  - destruct (String.eqb_spec k k') as [->|Hne].
    + split; [discriminate | intros H; exfalso; apply H; left; reflexivity].
    + rewrite IH. split.
      * intros H [Heq | Hin]; [congruence | exact (H Hin)].
      * intros H Hin. apply H. right. exact Hin.
Qed.

Lemma dict_get_of_in {V} (d : list (string * V)) (k : string) (v : V) :
  NoDup (dict_keys d) -> In (k, v) d -> dict_get d k = Some v.
Proof.
  unfold dict_keys. induction d as [|[k' v'] d IH]; simpl; [intros _ []|].
  intros Hnd Hin. inversion Hnd as [|? ? Hnotin Hnd']; subst.
  destruct Hin as [[= -> ->] | Hin].
  - rewrite String.eqb_refl. reflexivity.
  - destruct (String.eqb_spec k k') as [->|Hne].
    + exfalso. apply Hnotin. apply in_map_iff. exists (k', v). auto.
    + apply IH; assumption.
Qed.

(** ** The rules of the loader *)

Lemma load_state_rules_keys loader :
  dict_keys (load_state_rules loader) = dict_keys (raw_states loader).
Proof.
  unfold load_state_rules, dict_keys. rewrite map_map. reflexivity.
Qed.

Lemma load_state_rules_codes loader :
  map StateRule.state_code (dict_values (load_state_rules loader))
  = dict_keys (raw_states loader).
Proof.
  unfold load_state_rules, dict_values, dict_keys. rewrite !map_map. reflexivity.
Qed.

Lemma load_state_rules_in loader k rule :
  In (k, rule) (load_state_rules loader) -> StateRule.state_code rule = k.
Proof.
  unfold load_state_rules. intros Hin. apply in_map_iff in Hin.
  destruct Hin as ([k0 raw] & [= <- <-] & _). reflexivity.
Qed.

Lemma nodup_map_filter {K R} (keep : R -> bool) (code : R -> K) :
  forall rules : list R,
    NoDup (map code rules) -> NoDup (map code (filter keep rules)).
Proof.
  intros rules. induction rules as [|rule rules IH]; simpl.
  - intros _. constructor.
  - intros Hnd. inversion Hnd as [|? ? Hnotin Hnd']; subst.
    destruct (keep rule); simpl; [|apply IH; exact Hnd'].
    constructor; [|apply IH; exact Hnd'].
    intros Hin. apply Hnotin. apply in_map_iff in Hin.
    destruct Hin as (other & Hcode & Hin). apply filter_In in Hin.
    apply in_map_iff. exists other. tauto.
Qed.

Lemma current_rules_codes_nodup loader today :
  NoDup (dict_keys (raw_states loader)) ->
  NoDup (map StateRule.state_code (get_current_rules loader today)).
Proof.
  intros Hnd. unfold get_current_rules. apply nodup_map_filter.
  rewrite load_state_rules_codes. exact Hnd.
Qed.

Lemma date_leb_ltb (a b : date) : date_ltb a b = true -> date_leb b a = false.
Proof.
  unfold date_ltb, date_leb. rewrite (date_compare_antisym a b).
  destruct (date_compare a b); simpl; congruence.
Qed.

Lemma current_rule_lookup loader today rule :
  NoDup (dict_keys (raw_states loader)) ->
  In rule (get_current_rules loader today) ->
  upper (StateRule.state_code rule) = StateRule.state_code rule ->
  get_rule_for_state loader today (StateRule.state_code rule) = Some rule.
Proof.
  intros Hnd Hin Hup. unfold get_current_rules in Hin.
  apply filter_In in Hin. destruct Hin as [Hin Hcur].
  unfold dict_values in Hin. apply in_map_iff in Hin.
  destruct Hin as ([k rule'] & Heq & Hin). simpl in Heq. subst rule'.
  pose proof (load_state_rules_in _ _ _ Hin) as Hk.
  unfold get_rule_for_state. rewrite Hup, Hk.
  rewrite (dict_get_of_in _ _ _ ltac:(rewrite load_state_rules_keys; exact Hnd) Hin).
  unfold is_current in Hcur.
  destruct (StateRule.end_date rule) as [e|]; [|reflexivity].
  rewrite (date_leb_ltb _ _ Hcur). reflexivity.
Qed.

(** ** Completeness of the state results *)

Lemma with_rule_in loader today by_state k g rule :
  In (k, g, rule) (with_rule loader today by_state) <->
  In (k, g) by_state /\ get_rule_for_state loader today k = Some rule.
Proof.
  unfold with_rule. rewrite in_flat_map. split.
  - intros ([k0 g0] & Hin & Hg). simpl in Hg.
    destruct (get_rule_for_state loader today k0) as [rule0|] eqn:E;
      [|destruct Hg].
    destruct Hg as [[= -> -> ->] | []]. split; assumption.
  - intros [Hin Hrule]. exists (k, g). split; [exact Hin|].
    simpl. rewrite Hrule. left. reflexivity.
Qed.

Lemma with_rule_keys_nodup loader today by_state :
  NoDup (dict_keys by_state) ->
  NoDup (map (fun g => fst (fst g)) (with_rule loader today by_state)).
Proof.
  unfold dict_keys, with_rule.
  induction by_state as [|[k g] rest IH]; simpl; [intros; constructor|].
  intros Hnd. inversion Hnd as [|? ? Hnotin Hnd']; subst.
  destruct (get_rule_for_state loader today k) as [rule|]; simpl;
    [|apply IH; exact Hnd'].
  constructor; [|apply IH; exact Hnd'].
  intros Hin. apply Hnotin. apply in_map_iff in Hin.
  destruct Hin as ([[k0 g0] rule0] & Hk & Hin). simpl in Hk. subst k0.
  apply (with_rule_in loader today rest k g0 rule0) in Hin.
  apply in_map_iff. exists (k, g0). split; [reflexivity | apply Hin].
Qed.

Lemma analyzed_codes loader groups results :
  Forall2 (analyzed loader) groups results ->
  map StateResult.state_code results = map (fun g => fst (fst g)) groups.
Proof.
  induction 1 as [|g r gs rs Hr _ IH]; simpl; [reflexivity|].
  rewrite IH. f_equal. eapply analyze_state_state_code. exact Hr.
Qed.

Lemma analyzed_in loader groups results g :
  Forall2 (analyzed loader) groups results ->
  In g groups -> exists r, In r results /\ analyzed loader g r.
Proof.
  induction 1 as [|g0 r0 gs rs Hr _ IH]; simpl; [intros []|].
  intros [<- | Hin].
  - exists r0. split; [left; reflexivity | exact Hr].
  - destruct (IH Hin) as (r & Hr' & Ha). exists r. split; [right|]; assumption.
Qed.

Lemma zero_activity_codes loader rules :
  map StateResult.state_code (map (zero_activity loader) rules)
  = map StateRule.state_code rules.
Proof. rewrite map_map. reflexivity. Qed.

Lemma count_once (l : list string) (k : string) :
  NoDup l -> In k l -> count_occ string_dec l k = 1%nat.
Proof. intros Hnd. apply NoDup_count_occ'. exact Hnd. Qed.

Lemma count_none (l : list string) (k : string) :
  ~ In k l -> count_occ string_dec l k = 0%nat.
Proof. apply count_occ_not_In. Qed.

(** C7. With state codes in capitals on the transactions, the state of every
    current rule has one result in the analysis: the result of
    [_analyze_state] on its transactions that passed the filter, or, when
    there is none, the zero-activity result of the rule. *)
Theorem every_current_rule_once loader today transactions year_opt
    ignore_marketplace include_negatives :
  NoDup (dict_keys (raw_states loader)) ->
  Forall (fun t => upper (Transaction.state_code t) = Transaction.state_code t)
    transactions ->
  exists res,
    analyze loader today transactions year_opt ignore_marketplace
      include_negatives = Some res /\
    forall rule,
      In rule (get_current_rules loader today) ->
      count_occ string_dec
        (map StateResult.state_code (AnalysisResult.state_results res))
        (StateRule.state_code rule) = 1%nat /\
      exists r,
        In r (AnalysisResult.state_results res) /\
        StateResult.state_code r = StateRule.state_code rule /\
        match state_transactions (StateRule.state_code rule)
                (filter (passes (AnalysisResult.analysis_year res)
                           ignore_marketplace include_negatives) transactions)
        with
        | [] =>
            r = zero_activity loader rule /\
            StateResult.has_nexus r = false /\
            StateResult.total_revenue r = 0%Q /\
            StateResult.total_transactions r = 0 /\
            StateResult.threshold_revenue r = StateRule.amount rule /\
            StateResult.threshold_transactions r = StateRule.transactions rule /\
            StateResult.estimated_liability r = 0%Q
        | group =>
            _analyze_state loader (StateRule.state_code rule) group rule = Some r
        end.
Proof.
  intros Hnd Hupper.
  destruct (analyze_spec loader today transactions year_opt ignore_marketplace
              include_negatives) as (results & warnings & Hall & H).
  eexists. split; [exact H|].
  cbn [AnalysisResult.state_results AnalysisResult.analysis_year].
  set (yr := match year_opt with Some y => y | None => year today end) in *.
  set (filtered := filter (passes yr ignore_marketplace include_negatives)
                     transactions) in *.
  set (by_state := _group_by_state filtered) in *.
  intros rule Hin.
  set (c := StateRule.state_code rule).
  rewrite map_app, zero_activity_codes, count_occ_app.
  pose proof (analyzed_codes _ _ _ Hall) as Hcodes.
  pose proof (with_rule_keys_nodup loader today by_state
                (group_by_state_keys_nodup filtered)) as Hnd1.
  rewrite <- Hcodes in Hnd1.
  assert (Hnd2 : NoDup (map StateRule.state_code
                          (unprocessed (get_current_rules loader today)
                             (map StateResult.state_code results)))).
  { unfold unprocessed. apply nodup_map_filter.
    apply current_rules_codes_nodup. exact Hnd. }
  pose proof (group_by_state_get filtered c) as Hget. fold by_state in Hget.
  destruct (state_transactions c filtered) as [|t g] eqn:Eg.
  - assert (Hnot : ~ In c (map StateResult.state_code results)).
    { rewrite Hcodes. intros Hc. apply in_map_iff in Hc.
      destruct Hc as ([[k g0] rule0] & Hk & Hc). simpl in Hk. subst k.
      apply with_rule_in in Hc. destruct Hc as [Hc _].
      apply dict_get_none_not_key in Hget. apply Hget.
      apply in_map_iff. exists (c, g0). split; [reflexivity | exact Hc]. }
    assert (Hun : In rule (unprocessed (get_current_rules loader today)
                             (map StateResult.state_code results))).
    { unfold unprocessed. apply filter_In. split; [exact Hin|].
      destruct (existsb (String.eqb (StateRule.state_code rule))
                  (map StateResult.state_code results)) eqn:E; [|reflexivity].
      apply existsb_eqb_in in E. destruct (Hnot E). }
    split.
    + rewrite (count_none _ _ Hnot), (count_once _ _ Hnd2); [reflexivity|].
      apply in_map. exact Hun.
    + exists (zero_activity loader rule). split.
      * apply in_or_app. right. apply in_map. exact Hun.
      * repeat split; reflexivity.
  - assert (Ht : In t (state_transactions c filtered))
      by (rewrite Eg; left; reflexivity).
    unfold state_transactions in Ht. apply filter_In in Ht.
    destruct Ht as [Ht Hc]. apply String.eqb_eq in Hc.
    assert (Hup : upper c = c).
    { rewrite <- Hc. rewrite Forall_forall in Hupper. apply Hupper.
      unfold filtered in Ht. apply filter_In in Ht. apply Ht. }
    pose proof (current_rule_lookup loader today rule Hnd Hin Hup) as Hrule.
    assert (Hg : In (c, t :: g, rule) (with_rule loader today by_state)).
    { apply with_rule_in. split; [|exact Hrule].
      apply dict_get_in. exact Hget. }
    destruct (analyzed_in _ _ _ _ Hall Hg) as (r & Hr & Ha).
    unfold analyzed in Ha. simpl in Ha.
    pose proof (analyze_state_state_code _ _ _ _ _ Ha) as Hrc.
    assert (Hc1 : In c (map StateResult.state_code results)).
    { rewrite <- Hrc. apply in_map. exact Hr. }
    assert (Hnot : ~ In c (map StateRule.state_code
                             (unprocessed (get_current_rules loader today)
                                (map StateResult.state_code results)))).
    { intros Hc2. apply in_map_iff in Hc2. destruct Hc2 as (rule' & Hk & Hc2).
      unfold unprocessed in Hc2. apply filter_In in Hc2.
      destruct Hc2 as [_ Hc2]. rewrite Hk in Hc2.
      apply existsb_eqb_in in Hc1. fold c in Hc2. rewrite Hc1 in Hc2.
      discriminate. }
    split.
    + rewrite (count_once _ _ Hnd1 Hc1), (count_none _ _ Hnot). reflexivity.
    + exists r. split; [apply in_or_app; left; exact Hr|].
      split; [exact Hrc | exact Ha].
Qed.

Lemma every_current_rule_once_witness :
  exists res,
    analyze ex_loader ex_today ex_sales (Some 2024) false false = Some res /\
    forall rule,
      In rule (get_current_rules ex_loader ex_today) ->
      count_occ string_dec
        (map StateResult.state_code (AnalysisResult.state_results res))
        (StateRule.state_code rule) = 1%nat /\
      exists r,
        In r (AnalysisResult.state_results res) /\
        StateResult.state_code r = StateRule.state_code rule /\
        match state_transactions (StateRule.state_code rule)
                (filter (passes (AnalysisResult.analysis_year res) false false)
                   ex_sales)
        with
        | [] =>
            r = zero_activity ex_loader rule /\
            StateResult.has_nexus r = false /\
            StateResult.total_revenue r = 0%Q /\
            StateResult.total_transactions r = 0 /\
            StateResult.threshold_revenue r = StateRule.amount rule /\
            StateResult.threshold_transactions r = StateRule.transactions rule /\
            StateResult.estimated_liability r = 0%Q
        | group =>
            _analyze_state ex_loader (StateRule.state_code rule) group rule
            = Some r
        end.
Proof.
  apply (every_current_rule_once ex_loader ex_today ex_sales (Some 2024)
           false false).
  - repeat constructor; simpl; intuition discriminate.
  - repeat constructor.
Defined.

(** The states of the example analysis, in the order of the results: the
    two with sales, then the one without; "ZZ" has no rule. *)
Example states_of_example_analysis :
  option_map (fun res =>
                (map StateResult.state_code (AnalysisResult.state_results res),
                 AnalysisResult.warnings res))
    (analyze ex_loader ex_today ex_sales (Some 2024) false false)
  = Some (["CA"; "NY"; "OR"]%string, ["No rule found for state: ZZ"%string]).
Proof. reflexivity. Qed.

(** With negative amounts let in, a breached state can have a negative
    liability: a sale of 100 and a refund of 500 at 10 percent. *)
Example negative_liability :
  exists r,
    _analyze_state ex_loader "CA"
      [ex_txn "t1" "CA" 100; ex_txn "t2" "CA" (-500)] (ex_rule 100 None)
    = Some r /\
    StateResult.has_nexus r = true /\
    (StateResult.estimated_liability r < 0)%Q.
Proof. eexists. split; [reflexivity|]. split; reflexivity. Qed.

(** * Further properties of the detector *)

Lemma revenue_after_all (rev : Q) (l : list Transaction.t) :
  revenue_after rev l (List.length l)
  = fold_left Qplus (map Transaction.amount l) rev.
Proof. unfold revenue_after. rewrite firstn_all. reflexivity. Qed.

(** Without a breach under a rule with a threshold, the year as a whole
    stays under both thresholds. *)
Lemma no_breach_totals (rule : StateRule.t) (l : list Transaction.t) :
  (0 < StateRule.amount rule)%Q ->
  no_breach rule l ->
  (sum (map Transaction.amount l) < StateRule.amount rule)%Q /\
  forall n, StateRule.transactions rule = Some n -> 1 <= n -> len l < n.
Proof.
  intros Ha [Hz | Hnone].
  - rewrite (positive_not_zero _ Ha) in Hz. discriminate.
  - destruct l as [|t l'] using rev_ind.
    + split; [exact Ha|]. intros n _ Hn. unfold len. simpl. lia.
    + clear IHl'.
      assert (Hlast : threshold_met rule 0 0 (l' ++ [t]) (List.length l') = false).
      { apply Hnone. rewrite length_app. simpl. lia. }
      unfold threshold_met in Hlast. apply orb_false_iff in Hlast.
      destruct Hlast as [Hr Hc]. split.
      * unfold revenue_met in Hr. apply Qgeb_false in Hr.
        replace (S (List.length l')) with (List.length (l' ++ [t])) in Hr
          by (rewrite length_app; simpl; lia).
        rewrite revenue_after_all in Hr. exact Hr.
      * intros n Hn Hn1. unfold count_met in Hc. rewrite Hn in Hc.
        assert (Hnz : (n =? 0) = false) by (apply Z.eqb_neq; lia).
        rewrite Hnz in Hc. cbn [negb andb] in Hc.
        rewrite Z.geb_leb in Hc. apply Z.leb_gt in Hc.
        unfold len. rewrite length_app. simpl List.length. lia.
Qed.






(** With amounts that are not negative the running total of the loop
    does not go down. *)
Lemma running_total_le_last (l : list Transaction.t) (k : nat) :
  Forall (fun x => 0 <= x)%Q (map Transaction.amount l) ->
  (revenue_after 0 l k <= revenue_after 0 l (List.length l))%Q.
Proof.
  intros Hs. rewrite revenue_after_all. unfold revenue_after.
  rewrite <- (firstn_skipn k l) at 2. rewrite map_app, fold_left_app.
  apply fold_plus_ge_acc.
  rewrite <- (firstn_skipn k l) in Hs. rewrite map_app in Hs.
  apply Forall_app in Hs. apply Hs.
Qed.

(** X2.  With amounts that are not negative, stopping at the first breach
    neither misses nor invents a nexus: a state has nexus exactly when the
    running total of the loop, taken over the whole sorted sequence, reaches
    the revenue threshold, or the number of transactions reaches the
    transaction threshold. *)
Theorem nexus_decided_by_year_totals loader state_code transactions rule r :
  (0 < StateRule.amount rule)%Q ->
  valid_transactions rule ->
  Forall (fun t => 0 <= Transaction.amount t)%Q transactions ->
  _analyze_state loader state_code transactions rule = Some r ->
  (StateResult.has_nexus r = true <->
   (StateRule.amount rule
    <= revenue_after 0 (sorted transactions) (List.length transactions))%Q \/
   exists n, StateRule.transactions rule = Some n /\ n <= len transactions).
Proof.
  intros Ha Hv Hamounts Hr.
  assert (Hlen : List.length (sorted transactions) = List.length transactions)
    by apply sorted_length.
  rewrite <- Hlen. unfold len. rewrite <- Hlen.
  destruct (breach_or_not rule (sorted transactions)) as [[i Hb] | Hn].
  - destruct (analyze_state_breach loader state_code transactions rule i Hb)
      as (txn & _ & H).
    rewrite H in Hr. injection Hr as <-. cbn [StateResult.has_nexus].
    split; [intros _ | reflexivity].
    destruct Hb as (_ & Hi & Hmet & _). unfold threshold_met in Hmet.
    apply orb_true_iff in Hmet. destruct Hmet as [Hrev | Hcnt].
    + left. apply Qgeb_true in Hrev.
      eapply Qle_trans; [exact Hrev|].
      apply running_total_le_last.
      apply amounts_nonneg_sorted. exact Hamounts.
    + right. unfold count_met in Hcnt.
      destruct (StateRule.transactions rule) as [n|]; [|discriminate].
      exists n. split; [reflexivity|].
      apply andb_true_iff in Hcnt. destruct Hcnt as [_ Hge].
      apply Z.geb_le in Hge. lia.
  - rewrite (analyze_state_no_breach _ _ _ _ Hn) in Hr. injection Hr as <-.
    cbn [StateResult.has_nexus]. split; [discriminate|].
    destruct (no_breach_totals rule (sorted transactions) Ha Hn) as [Hsum Hcount].
    rewrite revenue_after_all.
    intros [Hrev | (n & Hn' & Hle)]; exfalso.
    + unfold sum in Hsum. exact (Qlt_not_le _ _ Hsum Hrev).
    + unfold valid_transactions in Hv. rewrite Hn' in Hv.
      specialize (Hcount n Hn' Hv). unfold len in Hcount. lia.
Qed.

Lemma nexus_decided_by_year_totals_witness :
  StateResult.has_nexus
    (StateResult.mk "CA" true 120 2 100 (Some 2) (Some "revenue"%string)
       (Some (mkdate 2024 6 15)) (Some "t2"%string) 120.00 10 56.00) = true
  <-> (StateRule.amount ex_rule_both
       <= revenue_after 0 (sorted ex_three) (List.length ex_three))%Q \/
      exists n, StateRule.transactions ex_rule_both = Some n /\
                n <= len ex_three.
Proof.
  apply (nexus_decided_by_year_totals ex_loader "CA" ex_three ex_rule_both).
  - reflexivity.
  - unfold valid_transactions. simpl. lia.
  - repeat constructor; discriminate.
  - reflexivity.
Defined.



(** ** The sort and the order of the input *)

Lemma sorted_of_sorted (l : list Transaction.t) :
  StronglySorted key_le l -> sorted l = l.
Proof.
  induction 1 as [|x l Hs IH Hall]; [reflexivity|].
  unfold sorted in *. simpl. rewrite IH.
  destruct l as [|y l']; [reflexivity|]. simpl.
  inversion Hall as [|? ? Hxy _]; subst. unfold key_le in Hxy.
  rewrite Hxy. reflexivity.
Qed.

(** X4.  Sorting leaves a sequence that is in key order as it is; sorting twice
    is sorting once. *)
Theorem sorted_idempotent (l : list Transaction.t) :
  sorted (sorted l) = sorted l /\
  (StronglySorted key_le l -> sorted l = l).
Proof.
  split; [apply sorted_of_sorted, sorted_sorted | apply sorted_of_sorted].
Qed.

Lemma key_injective (l : list Transaction.t) (x y : Transaction.t) :
  NoDup (map sort_key l) -> In x l -> In y l -> sort_key x = sort_key y -> x = y.
Proof.
  induction l as [|z l IH]; simpl; [intros _ []|].
  intros Hnd Hx Hy Hk. inversion Hnd as [|? ? Hnotin Hnd']; subst.
  destruct Hx as [-> | Hx], Hy as [-> | Hy].
  - reflexivity.
  - exfalso. apply Hnotin. rewrite Hk. apply in_map. exact Hy.
  - exfalso. apply Hnotin. rewrite <- Hk. apply in_map. exact Hx.
  - apply IH; assumption.
Qed.

Lemma key_order_unique :
  forall l l' : list Transaction.t,
    StronglySorted key_le l -> StronglySorted key_le l' ->
    Permutation l l' -> NoDup (map sort_key l) -> l = l'.
Proof.
  induction l as [|x l IH]; intros l' Hs Hs' Hp Hnd.
  - apply Permutation_nil in Hp. subst. reflexivity.
  - destruct l' as [|y l'];
      [apply Permutation_sym, Permutation_nil in Hp; discriminate|].
    inversion Hs as [|? ? Hsl Hx]; subst.
    inversion Hs' as [|? ? Hsl' Hy]; subst.
    assert (Hxy : x = y).
    { assert (Hyin : In y (x :: l))
        by (eapply Permutation_in; [apply Permutation_sym; exact Hp | left; reflexivity]).
      assert (Hxin : In x (y :: l'))
        by (eapply Permutation_in; [exact Hp | left; reflexivity]).
      destruct Hyin as [Heq | Hyin]; [exact Heq|].
      destruct Hxin as [Heq | Hxin]; [symmetry; exact Heq|].
      rewrite Forall_forall in Hx, Hy.
      pose proof (Hx y Hyin) as Hle1. pose proof (Hy x Hxin) as Hle2.
      unfold key_le in Hle1, Hle2.
      apply (key_injective (x :: l)); [exact Hnd | left; reflexivity | right; exact Hyin|].
      apply key_ltb_total; assumption. }
    subst y. f_equal. apply IH; try assumption.
    + eapply Permutation_cons_inv. exact Hp.
    + inversion Hnd; assumption.
Qed.

Lemma sorted_of_permutation (l l' : list Transaction.t) :
  Permutation l l' -> NoDup (map sort_key l) -> sorted l = sorted l'.
Proof.
  intros Hp Hnd. apply key_order_unique.
  - apply sorted_sorted.
  - apply sorted_sorted.
  - rewrite (sorted_perm l), Hp. symmetry. apply sorted_perm.
  - eapply Permutation_NoDup; [|exact Hnd].
    apply Permutation_map. symmetry. apply sorted_perm.
Qed.

(** X5.  When no two transactions of a state share both date and id, the result
    for the state does not depend on the order in which the transactions
    are given. *)
Theorem analyze_state_order_independent loader state_code transactions
    transactions' rule :
  Permutation transactions transactions' ->
  NoDup (map sort_key transactions) ->
  _analyze_state loader state_code transactions rule
  = _analyze_state loader state_code transactions' rule.
Proof.
  intros Hp Hnd. unfold _analyze_state.
  rewrite (sorted_of_permutation _ _ Hp Hnd). reflexivity.
Qed.

Lemma analyze_state_order_independent_witness :
  _analyze_state ex_loader "CA" ex_b_a ex_rule_both
  = _analyze_state ex_loader "CA" (rev ex_b_a) ex_rule_both.
Proof.
  apply (analyze_state_order_independent ex_loader "CA" ex_b_a (rev ex_b_a)
           ex_rule_both).
  - apply Permutation_rev.
  - repeat constructor; simpl; intuition discriminate.
Defined.

(** * Further properties of the filter and of the grouping *)

Lemma passes_filter_idem yr ignore_marketplace include_negatives l :
  filter (passes yr ignore_marketplace include_negatives)
    (filter (passes yr ignore_marketplace include_negatives) l)
  = filter (passes yr ignore_marketplace include_negatives) l.
Proof.
  induction l as [|t l IH]; simpl; [reflexivity|].
  destruct (passes yr ignore_marketplace include_negatives t) eqn:E; simpl;
    [rewrite E, IH; reflexivity | exact IH].
Qed.

Lemma passes_not_invalid yr ignore_marketplace include_negatives t :
  passes yr ignore_marketplace include_negatives t = true ->
  invalid_code yr ignore_marketplace include_negatives t = false.
Proof.
  unfold passes, invalid_code. intros H.
  apply andb_true_iff in H. destruct H as [_ H]. rewrite H.
  apply andb_false_r.
Qed.

Lemma no_invalid_among_kept yr ignore_marketplace include_negatives l :
  invalid_warnings yr ignore_marketplace include_negatives
    (filter (passes yr ignore_marketplace include_negatives) l) = [].
Proof.
  unfold invalid_warnings. induction l as [|t l IH]; simpl; [reflexivity|].
  destruct (passes yr ignore_marketplace include_negatives t) eqn:E; simpl;
    [|exact IH].
  rewrite (passes_not_invalid _ _ _ _ E). exact IH.
Qed.

(** X6.  Filtering what the filter kept keeps all of it and adds no warning. *)
Theorem filter_transactions_idempotent transactions yr ignore_marketplace
    include_negatives warnings :
  let out := _filter_transactions transactions yr ignore_marketplace
               include_negatives warnings in
  _filter_transactions (fst out) yr ignore_marketplace include_negatives
    (snd out) = out.
Proof.
  intros out. unfold out.
  rewrite (filter_transactions_spec transactions yr ignore_marketplace
             include_negatives warnings).
  cbn [fst snd].
  rewrite filter_transactions_spec, passes_filter_idem, no_invalid_among_kept.
  cbv zeta. rewrite Z.sub_diag. cbn [app].
  rewrite andb_false_r, app_nil_r. reflexivity.
Qed.

(** X7.  The warnings about state codes: one for each transaction that is of
    the year, is not dropped as a marketplace sale or for its sign, and has
    an invalid code, in the order of the input; then at most the warning
    about the number dropped. *)
Theorem state_code_warnings transactions yr ignore_marketplace
    include_negatives warnings :
  exists last,
    snd (_filter_transactions transactions yr ignore_marketplace
           include_negatives warnings)
    = warnings
      ++ map (fun t => invalid_state_warning (Transaction.state_code t))
           (filter (fun t =>
                      (year (Transaction.date t) =? yr)
                      && negb (ignore_marketplace && is_marketplace t)
                      && negb (negb include_negatives
                               && Qltb (Transaction.amount t) 0)
                      && negb (_is_valid_state_code (Transaction.state_code t)))
              transactions)
      ++ last /\
    (last = [] \/
     exists n, 0 < n <= len transactions /\ last = [filtered_out_warning n]).
Proof.
  rewrite filter_transactions_spec. cbn [snd]. eexists. split; [reflexivity|].
  cbv zeta.
  destruct ignore_marketplace; cbn [andb]; [|left; reflexivity].
  destruct (_ >? 0) eqn:E; [|left; reflexivity].
  right. eexists. split; [|reflexivity].
  apply Z.gtb_lt in E. split; [exact E|].
  unfold len. lia.
Qed.

Lemma group_members l k g :
  In (k, g) (_group_by_state l) -> g = state_transactions k l /\ g <> [].
Proof.
  intros Hin.
  apply (dict_get_of_in _ _ _ (group_by_state_keys_nodup l)) in Hin.
  rewrite group_by_state_get in Hin.
  destruct (state_transactions k l) as [|t g']; [discriminate|].
  injection Hin as <-. split; [reflexivity | discriminate].
Qed.

Lemma dict_append_values by_state k txn :
  Permutation (List.concat (dict_values (dict_append by_state k txn)))
    (txn :: List.concat (dict_values by_state)).
Proof.
  unfold dict_values. induction by_state as [|[k' g] rest IH]; simpl.
  - reflexivity.
  - destruct (String.eqb k k'); simpl.
    + rewrite <- app_assoc. simpl.
      rewrite <- Permutation_middle. reflexivity.
    + rewrite IH. symmetry. apply Permutation_middle.
Qed.

(** X8.  The groups are a partition of the transactions: the keys are distinct,
    the group of a code holds the transactions of that code in the order of
    the input and is not empty, and together the groups hold every
    transaction once. *)
Theorem group_by_state_partition (transactions : list Transaction.t) :
  NoDup (dict_keys (_group_by_state transactions)) /\
  (forall k g,
     In (k, g) (_group_by_state transactions) <->
     g = state_transactions k transactions /\ g <> []) /\
  Permutation (List.concat (dict_values (_group_by_state transactions))) transactions.
Proof.
  split; [apply group_by_state_keys_nodup|]. split.
  - intros k g. split; [apply group_members|].
    intros [-> Hne]. apply dict_get_in. rewrite group_by_state_get.
    destruct (state_transactions k transactions); [congruence | reflexivity].
  - induction transactions as [|t l IH] using rev_ind; [reflexivity|].
    rewrite group_by_state_snoc, dict_append_values, IH.
    apply Permutation_cons_append.
Qed.

(** * Further properties of [analyze] *)

Lemma analyze_spec_warnings loader today transactions year_opt
    ignore_marketplace include_negatives :
  let yr := match year_opt with Some y => y | None => year today end in
  let filtered :=
    filter (passes yr ignore_marketplace include_negatives) transactions in
  let by_state := _group_by_state filtered in
  exists results,
    Forall2 (analyzed loader) (with_rule loader today by_state) results /\
    analyze loader today transactions year_opt ignore_marketplace
      include_negatives
    = Some (AnalysisResult.mk
              (results
               ++ map (zero_activity loader)
                    (unprocessed (get_current_rules loader today)
                       (map StateResult.state_code results)))
              (sum (map StateResult.estimated_liability
                      (results
                       ++ map (zero_activity loader)
                            (unprocessed (get_current_rules loader today)
                               (map StateResult.state_code results)))))
              yr (len filtered)
              (snd (_filter_transactions transactions yr ignore_marketplace
                      include_negatives [])
               ++ no_rule_warnings loader today by_state)).
Proof.
  intros yr filtered by_state. unfold analyze.
  fold yr. rewrite filter_transactions_spec. fold filtered. fold by_state.
  match goal with
  | |- context [states_loop loader today by_state [] ?w] =>
      destruct (states_loop_spec loader today by_state [] w)
        as (results & Hloop & Hall)
  end.
  exists results. split; [exact Hall|].
  rewrite Hloop. cbn [app snd]. rewrite rules_loop_spec. reflexivity.
Qed.

Lemma result_codes_nodup loader today by_state results :
  NoDup (dict_keys (raw_states loader)) ->
  NoDup (dict_keys by_state) ->
  Forall2 (analyzed loader) (with_rule loader today by_state) results ->
  NoDup (map StateResult.state_code
           (results
            ++ map (zero_activity loader)
                 (unprocessed (get_current_rules loader today)
                    (map StateResult.state_code results)))).
Proof.
  intros Hnd Hkeys Hall.
  rewrite map_app, zero_activity_codes.
  apply NoDup_app.
  - rewrite (analyzed_codes _ _ _ Hall). apply with_rule_keys_nodup. exact Hkeys.
  - unfold unprocessed. apply nodup_map_filter.
    apply current_rules_codes_nodup. exact Hnd.
  - intros c Hc1 Hc2. apply in_map_iff in Hc2.
    destruct Hc2 as (rule & Hcode & Hin). unfold unprocessed in Hin.
    apply filter_In in Hin. destruct Hin as [_ Hin]. rewrite Hcode in Hin.
    apply existsb_eqb_in in Hc1. rewrite Hc1 in Hin. discriminate.
Qed.

(** X9.  No two state results of an analysis have the same state code. *)
Theorem state_codes_distinct loader today transactions year_opt
    ignore_marketplace include_negatives :
  NoDup (dict_keys (raw_states loader)) ->
  exists res,
    analyze loader today transactions year_opt ignore_marketplace
      include_negatives = Some res /\
    NoDup (map StateResult.state_code (AnalysisResult.state_results res)).
Proof.
  intros Hnd.
  destruct (analyze_spec_warnings loader today transactions year_opt
              ignore_marketplace include_negatives) as (results & Hall & H).
  eexists. split; [exact H|]. cbn [AnalysisResult.state_results].
  eapply result_codes_nodup; [exact Hnd | apply group_by_state_keys_nodup | exact Hall].
Qed.

Lemma state_codes_distinct_witness :
  exists res,
    analyze ex_loader ex_today ex_sales (Some 2024) false false = Some res /\
    NoDup (map StateResult.state_code (AnalysisResult.state_results res)).
Proof.
  apply (state_codes_distinct ex_loader ex_today ex_sales (Some 2024) false false).
  repeat constructor; simpl; intuition discriminate.
Defined.

Lemma dict_get_values {V} (d : list (string * V)) (k : string) (v : V) :
  dict_get d k = Some v -> In v (dict_values d).
Proof.
  intros H. apply dict_get_in in H. unfold dict_values.
  apply in_map_iff. exists (k, v). split; [reflexivity | exact H].
Qed.

Lemma date_ltb_leb (a b : date) : date_leb b a = false -> date_ltb a b = true.
Proof.
  unfold date_ltb, date_leb. rewrite (date_compare_antisym a b).
  destruct (date_compare a b); simpl; congruence.
Qed.

(** A rule that [get_rule_for_state] returns is a current rule, filed
    under the code in capitals. *)
Lemma rule_for_state_current loader today state_code rule :
  get_rule_for_state loader today state_code = Some rule ->
  In rule (get_current_rules loader today) /\
  StateRule.state_code rule = upper state_code.
Proof.
  unfold get_rule_for_state, get_current_rules.
  destruct (dict_get (load_state_rules loader) (upper state_code)) as [r|] eqn:E;
    [|discriminate].
  intros H.
  assert (Hr : r = rule /\ is_current today r = true).
  { unfold is_current. destruct (StateRule.end_date r) as [e|].
    - destruct (date_leb e today) eqn:El; [discriminate|].
      injection H as <-. split; [reflexivity | apply date_ltb_leb; exact El].
    - injection H as <-. split; reflexivity. }
  destruct Hr as [<- Hcur]. split.
  - apply filter_In. split; [|exact Hcur]. eapply dict_get_values. exact E.
  - apply (load_state_rules_in loader). apply dict_get_in. exact E.
Qed.

(** X10.  With state codes in capitals on the transactions, the state codes of
    the results are those of the current rules, each once: the analysis has
    as many state results as there are current rules. *)
Theorem state_codes_are_those_of_current_rules loader today transactions
    year_opt ignore_marketplace include_negatives :
  NoDup (dict_keys (raw_states loader)) ->
  Forall (fun t => upper (Transaction.state_code t) = Transaction.state_code t)
    transactions ->
  exists res,
    analyze loader today transactions year_opt ignore_marketplace
      include_negatives = Some res /\
    Permutation (map StateResult.state_code (AnalysisResult.state_results res))
      (map StateRule.state_code (get_current_rules loader today)) /\
    len (AnalysisResult.state_results res) = len (get_current_rules loader today).
Proof.
  intros Hnd Hupper.
  destruct (analyze_spec_warnings loader today transactions year_opt
              ignore_marketplace include_negatives) as (results & Hall & H).
  eexists. split; [exact H|]. cbn [AnalysisResult.state_results].
  set (yr := match year_opt with Some y => y | None => year today end) in *.
  set (filtered := filter (passes yr ignore_marketplace include_negatives)
                     transactions) in *.
  set (by_state := _group_by_state filtered) in *.
  assert (Hperm : Permutation
                    (map StateResult.state_code
                       (results
                        ++ map (zero_activity loader)
                             (unprocessed (get_current_rules loader today)
                                (map StateResult.state_code results))))
                    (map StateRule.state_code (get_current_rules loader today))).
  { apply NoDup_Permutation.
    - eapply result_codes_nodup;
        [exact Hnd | apply group_by_state_keys_nodup | exact Hall].
    - apply current_rules_codes_nodup. exact Hnd.
    - intros c. rewrite map_app, zero_activity_codes, in_app_iff. split.
      + intros [Hc | Hc].
        * rewrite (analyzed_codes _ _ _ Hall) in Hc. apply in_map_iff in Hc.
          destruct Hc as ([[k g] rule] & Hk & Hc). simpl in Hk. subst k.
          apply with_rule_in in Hc. destruct Hc as [Hg Hrule].
          destruct (group_members _ _ _ Hg) as [-> Hne].
          destruct (state_transactions c filtered) as [|t g'] eqn:Eg;
            [congruence|].
          assert (Ht : In t (state_transactions c filtered))
            by (rewrite Eg; left; reflexivity).
          unfold state_transactions in Ht. apply filter_In in Ht.
          destruct Ht as [Ht Hc]. apply String.eqb_eq in Hc.
          assert (Hup : upper c = c).
          { rewrite <- Hc. rewrite Forall_forall in Hupper. apply Hupper.
            unfold filtered in Ht. apply filter_In in Ht. apply Ht. }
          destruct (rule_for_state_current _ _ _ _ Hrule) as [Hcur Hcode].
          apply in_map_iff. exists rule. split; [congruence | exact Hcur].
        * apply in_map_iff in Hc. destruct Hc as (rule & Hcode & Hin).
          unfold unprocessed in Hin. apply filter_In in Hin.
          apply in_map_iff. exists rule. split; [exact Hcode | apply Hin].
      + intros Hc. apply in_map_iff in Hc. destruct Hc as (rule & Hcode & Hin).
        destruct (existsb (String.eqb (StateRule.state_code rule))
                    (map StateResult.state_code results)) eqn:E.
        * left. apply existsb_eqb_in in E. rewrite <- Hcode. exact E.
        * right. apply in_map_iff. exists rule. split; [exact Hcode|].
          unfold unprocessed. apply filter_In. split; [exact Hin|].
          rewrite E. reflexivity. }
  split; [exact Hperm|].
  apply Permutation_length in Hperm. rewrite !length_map in Hperm.
  unfold len. rewrite Hperm. reflexivity.
Qed.

Lemma state_codes_are_those_of_current_rules_witness :
  exists res,
    analyze ex_loader ex_today ex_sales (Some 2024) false false = Some res /\
    Permutation (map StateResult.state_code (AnalysisResult.state_results res))
      (map StateRule.state_code (get_current_rules ex_loader ex_today)) /\
    len (AnalysisResult.state_results res)
    = len (get_current_rules ex_loader ex_today).
Proof.
  apply (state_codes_are_those_of_current_rules ex_loader ex_today ex_sales
           (Some 2024) false false).
  - repeat constructor; simpl; intuition discriminate.
  - repeat constructor.
Defined.

(** A code in small letters is valid and is looked up in capitals: its
    sales are reported under "ca", and "CA" is reported without activity. *)
Example lowercase_code_reported_twice :
  option_map (fun res =>
                map (fun r => (StateResult.state_code r,
                               StateResult.total_transactions r))
                  (AnalysisResult.state_results res))
    (analyze ex_loader ex_today [ex_txn "s1" "ca" 60] (Some 2024) false false)
  = Some [("ca"%string, 1); ("CA"%string, 0); ("NY"%string, 0);
          ("OR"%string, 0)].
Proof. reflexivity. Qed.

(** X11.  A state with transactions of the year and no current rule gets the
    warning, and, when its code is in capitals, no state result. *)
Theorem state_without_rule_excluded loader today transactions year_opt
    ignore_marketplace include_negatives k :
  state_transactions k
    (filter (passes (match year_opt with Some y => y | None => year today end)
               ignore_marketplace include_negatives) transactions) <> [] ->
  get_rule_for_state loader today k = None ->
  exists res,
    analyze loader today transactions year_opt ignore_marketplace
      include_negatives = Some res /\
    In (no_rule_warning k) (AnalysisResult.warnings res) /\
    (NoDup (dict_keys (raw_states loader)) -> upper k = k ->
     forall r, In r (AnalysisResult.state_results res) ->
               StateResult.state_code r <> k).
Proof.
  intros Hne Hnone.
  destruct (analyze_spec_warnings loader today transactions year_opt
              ignore_marketplace include_negatives) as (results & Hall & H).
  eexists. split; [exact H|].
  cbn [AnalysisResult.state_results AnalysisResult.warnings].
  set (yr := match year_opt with Some y => y | None => year today end) in *.
  set (filtered := filter (passes yr ignore_marketplace include_negatives)
                     transactions) in *.
  set (by_state := _group_by_state filtered) in *.
  split.
  - apply in_or_app. right. unfold no_rule_warnings. apply in_flat_map.
    exists (k, state_transactions k filtered). split.
    + apply dict_get_in. unfold by_state. rewrite group_by_state_get.
      destruct (state_transactions k filtered); [congruence | reflexivity].
    + simpl. rewrite Hnone. left. reflexivity.
  - intros Hnd Hup r Hr Hcode. apply in_app_or in Hr. destruct Hr as [Hr | Hr].
    + assert (Hc : In k (map StateResult.state_code results))
        by (rewrite <- Hcode; apply in_map; exact Hr).
      rewrite (analyzed_codes _ _ _ Hall) in Hc. apply in_map_iff in Hc.
      destruct Hc as ([[k0 g] rule] & Hk & Hc). simpl in Hk. subst k0.
      apply with_rule_in in Hc. destruct Hc as [_ Hrule]. congruence.
    + apply in_map_iff in Hr. destruct Hr as (rule & <- & Hin).
      unfold unprocessed in Hin. apply filter_In in Hin. destruct Hin as [Hin _].
      simpl in Hcode.
      pose proof (current_rule_lookup loader today rule Hnd Hin) as Hlook.
      rewrite Hcode in Hlook. specialize (Hlook Hup). congruence.
Qed.

Lemma state_without_rule_excluded_witness :
  exists res,
    analyze ex_loader ex_today ex_sales (Some 2024) false false = Some res /\
    In (no_rule_warning "ZZ") (AnalysisResult.warnings res) /\
    (NoDup (dict_keys (raw_states ex_loader)) -> upper "ZZ" = "ZZ"%string ->
     forall r, In r (AnalysisResult.state_results res) ->
               StateResult.state_code r <> "ZZ"%string).
Proof.
  apply (state_without_rule_excluded ex_loader ex_today ex_sales (Some 2024)
           false false "ZZ").
  - vm_compute. discriminate.
  - reflexivity.
Defined.





(** * Properties of the loader *)

Lemma upper_ascii_idempotent (c : ascii) :
  upper_ascii (upper_ascii c) = upper_ascii c.
Proof. destruct c as [[] [] [] [] [] [] [] []]; reflexivity. Qed.

Lemma upper_idempotent (s : string) : upper (upper s) = upper s.
Proof.
  induction s as [|c s IH]; simpl; [reflexivity|].
  rewrite upper_ascii_idempotent, IH. reflexivity.
Qed.

(** X13.  The lookups do not depend on the case of the code they are given. *)
Theorem lookups_ignore_case loader today (s s' : string) :
  upper s = upper s' ->
  get_rule_for_state loader today s = get_rule_for_state loader today s' /\
  get_tax_rate loader s = get_tax_rate loader s' /\
  get_rule_for_state loader today (upper s) = get_rule_for_state loader today s /\
  get_tax_rate loader (upper s) = get_tax_rate loader s.
Proof.
  intros H. unfold get_rule_for_state, get_tax_rate.
  rewrite upper_idempotent, H. repeat split; reflexivity.
Qed.

Lemma lookups_ignore_case_witness :
  get_rule_for_state ex_loader ex_today "ca"
  = get_rule_for_state ex_loader ex_today "Ca" /\
  get_tax_rate ex_loader "ca" = get_tax_rate ex_loader "Ca" /\
  get_rule_for_state ex_loader ex_today (upper "ca")
  = get_rule_for_state ex_loader ex_today "ca" /\
  get_tax_rate ex_loader (upper "ca") = get_tax_rate ex_loader "ca".
Proof.
  apply (lookups_ignore_case ex_loader ex_today "ca" "Ca"). reflexivity.
Defined.

(** X14.  The rule that [get_rule_for_state] gives for a code is the current rule
    filed under the code in capitals, and there is one when such a rule is
    among [get_current_rules]; a rule that ends today or earlier is neither
    looked up nor listed. *)
Theorem rule_lookup_agrees_with_current_rules loader today state_code rule :
  NoDup (dict_keys (raw_states loader)) ->
  (get_rule_for_state loader today state_code = Some rule <->
   In rule (get_current_rules loader today) /\
   StateRule.state_code rule = upper state_code) /\
  (In rule (get_current_rules loader today) ->
   match StateRule.end_date rule with
   | Some e => date_ltb today e = true
   | None => True
   end).
Proof.
  intros Hnd. split.
  - split; [apply rule_for_state_current|].
    intros [Hin Hcode].
    assert (Hup : upper (StateRule.state_code rule) = StateRule.state_code rule)
      by (rewrite Hcode; apply upper_idempotent).
    pose proof (current_rule_lookup loader today rule Hnd Hin Hup) as H.
    rewrite Hcode in H. unfold get_rule_for_state in *.
    rewrite upper_idempotent in H. exact H.
  - intros Hin. unfold get_current_rules in Hin. apply filter_In in Hin.
    destruct Hin as [_ Hcur]. unfold is_current in Hcur.
    destruct (StateRule.end_date rule); [exact Hcur | exact I].
Qed.

Lemma rule_lookup_agrees_with_current_rules_witness :
  (get_rule_for_state ex_loader ex_today "ny"
   = Some (with_state_code "NY" (ex_rule 500 None)) <->
   In (with_state_code "NY" (ex_rule 500 None))
     (get_current_rules ex_loader ex_today) /\
   StateRule.state_code (with_state_code "NY" (ex_rule 500 None)) = upper "ny") /\
  (In (with_state_code "NY" (ex_rule 500 None))
     (get_current_rules ex_loader ex_today) ->
   match StateRule.end_date (with_state_code "NY" (ex_rule 500 None)) with
   | Some e => date_ltb ex_today e = true
   | None => True
   end).
Proof.
  apply (rule_lookup_agrees_with_current_rules ex_loader ex_today "ny"
           (with_state_code "NY" (ex_rule 500 None))).
  repeat constructor; simpl; intuition discriminate.
Defined.

Lemma state_code_mismatch_none (v : list (string * StateRule.t)) :
  state_code_mismatch v = None <->
  Forall (fun kv => StateRule.state_code (snd kv) = fst kv) v.
Proof.
  induction v as [|[k rule] rest IH]; simpl.
  - split; [constructor | reflexivity].
  - destruct (String.eqb_spec (StateRule.state_code rule) k) as [Heq | Hne]; simpl.
    + rewrite IH. split.
      * intros H. constructor; [exact Heq | exact H].
      * intros H. inversion H. assumption.
    + split; [discriminate|]. intros H. inversion H. simpl in *. congruence.
Qed.

(** X15.  The validator of the state codes accepts a mapping exactly when every
    rule carries its key, and it accepts every mapping that
    [load_state_rules] builds, since the loader writes the key into each
    rule first. *)
Theorem loaded_state_codes_validate loader :
  (forall v,
     validate_state_codes v = inr v <->
     Forall (fun kv => StateRule.state_code (snd kv) = fst kv) v) /\
  validate_state_codes (load_state_rules loader) = inr (load_state_rules loader).
Proof.
  assert (Hiff : forall v,
            validate_state_codes v = inr v <->
            Forall (fun kv => StateRule.state_code (snd kv) = fst kv) v).
  { intros v. rewrite <- state_code_mismatch_none. unfold validate_state_codes.
    destruct (state_code_mismatch v); split; congruence. }
  split; [exact Hiff|]. apply Hiff.
  unfold load_state_rules. apply Forall_map. apply Forall_forall.
  intros [k raw] _. reflexivity.
Qed.

(** X16.  An end date that the validator accepts next to an effective date is
    after it, so that the rule is current on its effective date. *)
Theorem accepted_end_date_after_effective (rule : StateRule.t) :
  end_date_must_be_after_effective (StateRule.end_date rule)
    (Some (StateRule.effective_date rule)) = inr (StateRule.end_date rule) ->
  is_current (StateRule.effective_date rule) rule = true.
Proof.
  unfold end_date_must_be_after_effective, is_current.
  destruct (StateRule.end_date rule) as [e|]; [|reflexivity].
  destruct (date_leb e (StateRule.effective_date rule)) eqn:E; [discriminate|].
  intros _. apply date_ltb_leb. exact E.
Qed.

Lemma accepted_end_date_after_effective_witness :
  is_current (mkdate 2019 4 1)
    (StateRule.mk "CA" 100 None (mkdate 2019 4 1) (Some (mkdate 2020 1 1))
       "CA-2019-04" None) = true.
Proof.
  apply (accepted_end_date_after_effective
           (StateRule.mk "CA" 100 None (mkdate 2019 4 1) (Some (mkdate 2020 1 1))
              "CA-2019-04" None)).
  reflexivity.
Defined.

(** * Reading the state of a CSV row *)

Lemma state_names_checked :
  forallb (fun kv =>
             _is_valid_state_code (snd kv)
             && String.eqb (upper (snd kv)) (snd kv)
             && (2 <? String.length (fst kv))%nat)
    state_names = true.
Proof. vm_compute. reflexivity. Qed.

Lemma state_names_entry (k code : string) :
  dict_get state_names k = Some code ->
  _is_valid_state_code code = true /\ upper code = code /\
  (2 < String.length k)%nat.
Proof.
  intros H. apply dict_get_in in H.
  pose proof state_names_checked as Hall. rewrite forallb_forall in Hall.
  specialize (Hall _ H). simpl in Hall.
  apply andb_true_iff in Hall. destruct Hall as [Hall Hlen].
  apply andb_true_iff in Hall. destruct Hall as [Hvalid Hup].
  apply String.eqb_eq in Hup. apply Nat.ltb_lt in Hlen. auto.
Qed.

Lemma upper_length (s : string) : String.length (upper s) = String.length s.
Proof. induction s as [|c s IH]; simpl; [reflexivity | rewrite IH; reflexivity]. Qed.

Lemma prefix_length (m : nat) (s : string) :
  (String.length (substring 0 m s) <= m)%nat.
Proof.
  revert s. induction m as [|m IH]; intros [|c s]; simpl; try lia.
  specialize (IH s). lia.
Qed.

Lemma prefix_of_short (m : nat) (s : string) :
  (String.length s <= m)%nat -> substring 0 m s = s.
Proof.
  revert s. induction m as [|m IH]; intros [|c s]; simpl; intros H;
    try reflexivity; try lia.
  rewrite IH by lia. reflexivity.
Qed.

Lemma upper_prefix (m : nat) (s : string) :
  upper (substring 0 m s) = substring 0 m (upper s).
Proof.
  revert s. induction m as [|m IH]; intros [|c s]; simpl; try reflexivity.
  rewrite IH. reflexivity.
Qed.

Lemma valid_code_length (code : string) :
  _is_valid_state_code code = true -> String.length code = 2%nat.
Proof.
  unfold _is_valid_state_code. intros H.
  apply andb_true_iff in H. destruct H as [H _]. apply Z.eqb_eq in H. lia.
Qed.

(** X17.  [_map_state_name] gives at most two characters; for a name of the
    table, whatever its case, a valid code in capitals; and a name of at most
    two characters is returned as it is. *)
Theorem map_state_name_result (name : string) :
  (String.length (_map_state_name name) <= 2)%nat /\
  (In (upper name) (dict_keys state_names) ->
   _is_valid_state_code (_map_state_name name) = true /\
   upper (_map_state_name name) = _map_state_name name /\
   _map_state_name (upper name) = _map_state_name name) /\
  ((String.length name <= 2)%nat -> _map_state_name name = name).
Proof.
  unfold _map_state_name. rewrite upper_idempotent.
  destruct (dict_get state_names (upper name)) as [code|] eqn:E.
  - destruct (state_names_entry _ _ E) as (Hvalid & Hup & Hlen).
    split; [rewrite (valid_code_length _ Hvalid); lia|]. split.
    + intros _. auto.
    + intros Hshort. rewrite upper_length in Hlen. lia.
  - split; [apply prefix_length|]. split.
    + intros Hin. apply dict_get_none_not_key in E. destruct (E Hin).
    + intros Hshort. apply prefix_of_short. exact Hshort.
Qed.

(** X18.  The state code that [load_csv] gives to a row has at most two
    characters and is in capitals, whatever the cell holds. *)
Theorem parsed_state_code_normal (raw : string) :
  (String.length (parse_state_code raw) <= 2)%nat /\
  upper (parse_state_code raw) = parse_state_code raw.
Proof.
  unfold parse_state_code.
  destruct (Z.of_nat (String.length (upper (strip raw))) >? 2) eqn:E.
  - unfold _map_state_name. rewrite upper_idempotent.
    destruct (dict_get state_names (upper (strip raw))) as [code|] eqn:Eg.
    + destruct (state_names_entry _ _ Eg) as (Hvalid & Hup & _).
      split; [rewrite (valid_code_length _ Hvalid); lia | exact Hup].
    + split; [apply prefix_length|].
      rewrite upper_prefix, upper_idempotent. reflexivity.
  - split; [|apply upper_idempotent].
    destruct (Z.gtb_spec (Z.of_nat (String.length (upper (strip raw)))) 2);
      [discriminate | lia].
Qed.

(** Cells of the state column and the codes they are read as. *)
Example parsed_state_codes :
  map parse_state_code
    [" ca "; "California"; "new york"; "Puerto Rico"; "N"; ""]%string
  = ["CA"; "CA"; "NY"; "PU"; "N"; ""]%string.
Proof. reflexivity. Qed.

(** * The columns of the CSV file *)

Lemma has_column_in (columns : list string) (name : string) :
  has_column columns name = true <-> In name columns.
Proof. apply existsb_eqb_in. Qed.

Lemma rename_in (columns : list string) (alt_name col c : string) :
  In c (rename columns alt_name col) <->
  (In alt_name columns /\ c = col) \/ (In c columns /\ c <> alt_name).
Proof.
  unfold rename. rewrite in_map_iff. split.
  - intros (x & Hx & Hin). destruct (String.eqb x alt_name) eqn:E.
    + apply String.eqb_eq in E. subst x. left. split; [exact Hin | congruence].
    + apply String.eqb_neq in E. right. subst x. split; assumption.
  - intros [[Hin ->] | [Hin Hne]].
    + exists alt_name. rewrite String.eqb_refl. split; [reflexivity | exact Hin].
    + exists c. apply String.eqb_neq in Hne. rewrite Hne. split; [reflexivity | exact Hin].
Qed.

Lemma first_alt_some (alts columns : list string) (a : string) :
  first_alt alts columns = Some a -> In a alts /\ In a columns.
Proof.
  induction alts as [|x alts IH]; simpl; [discriminate|].
  destruct (has_column columns x) eqn:E.
  - intros [= <-]. split; [left; reflexivity | apply has_column_in; exact E].
  - intros H. destruct (IH H). split; [right|]; assumption.
Qed.

Lemma first_alt_none (alts columns : list string) :
  first_alt alts columns = None -> forall a, In a alts -> ~ In a columns.
Proof.
  induction alts as [|x alts IH]; simpl; [intros _ a []|].
  destruct (has_column columns x) eqn:E; [discriminate|].
  intros H a [<- | Hin] Hc.
  - apply has_column_in in Hc. congruence.
  - exact (IH H a Hin Hc).
Qed.

(** The table: no alternative is a required name, and no name is an
    alternative of two required columns. *)
Lemma alt_not_required (col a : string) :
  In col required_cols -> In a (alt_names col) -> ~ In a required_cols.
Proof.
  intros Hcol Ha Hr. simpl in Hcol.
  destruct Hcol as [<- | [<- | [<- | []]]]; simpl in Ha, Hr;
    intuition (subst; discriminate).
Qed.

Lemma alts_disjoint (col col' a : string) :
  In col required_cols -> In col' required_cols -> col <> col' ->
  In a (alt_names col) -> ~ In a (alt_names col').
Proof.
  intros Hcol Hcol' Hne Ha Ha'. simpl in Hcol, Hcol'.
  destruct Hcol as [<- | [<- | [<- | []]]];
    destruct Hcol' as [<- | [<- | [<- | []]]];
    try congruence; simpl in Ha, Ha'; intuition (subst; discriminate).
Qed.

Lemma missing_loop_spec (orig : list string) :
  forall missing columns,
    NoDup missing ->
    (forall c, In c missing -> In c required_cols) ->
    (forall c, In c required_cols -> ~ In c missing -> In c columns) ->
    (forall c a, In c missing -> In a (alt_names c) ->
                 (In a columns <-> In a orig)) ->
    List.length columns = List.length orig ->
    match missing_loop missing columns with
    | inr columns' =>
        (forall c, In c missing ->
                   exists a, In a (alt_names c) /\ In a orig) /\
        (forall c, In c required_cols -> In c columns') /\
        List.length columns' = List.length orig
    | inl msg =>
        exists col, In col missing /\
                    msg = ("Missing required column: " ++ col)%string /\
                    forall a, In a (alt_names col) -> ~ In a orig
    end.
Proof.
  induction missing as [|col rest IH]; intros columns Hnd Hreq Hthere Halts Hlen.
  - simpl. split; [intros c []|]. split; [|exact Hlen].
    intros c Hc. apply Hthere; [exact Hc | intros []].
  - cbn [missing_loop].
    destruct (first_alt (alt_names col) columns) as [alt|] eqn:E.
    + apply first_alt_some in E. destruct E as [Halt Hin].
      inversion Hnd as [|? ? Hnotin Hnd']; subst.
      assert (Hcolreq : In col required_cols) by (apply Hreq; left; reflexivity).
      specialize (IH (rename columns alt col) Hnd').
      destruct (missing_loop rest (rename columns alt col)) as [msg | columns'].
      * destruct IH as (c & Hc & Hmsg & Hno).
        -- intros c Hc. apply Hreq. right. exact Hc.
        -- intros c Hc Hnc. apply rename_in.
           destruct (String.eqb_spec c col) as [->|Hne]; [left; auto|].
           right. split.
           ++ apply Hthere; [exact Hc|]. intros [Heq | Hin']; [congruence | auto].
           ++ intros ->. exact (alt_not_required col alt Hcolreq Halt Hc).
        -- intros c a Hc Ha. rewrite <- (Halts c a (or_intror Hc) Ha).
           rewrite rename_in. split.
           ++ intros [[_ ->] | [Hin' _]]; [|exact Hin'].
              exfalso. apply (alt_not_required c col (Hreq c (or_intror Hc)) Ha).
              exact Hcolreq.
           ++ intros Hin'. right. split; [exact Hin'|]. intros ->.
              apply (alts_disjoint col c alt Hcolreq (Hreq c (or_intror Hc)));
                [intros ->; exact (Hnotin Hc) | exact Halt | exact Ha].
        -- unfold rename. rewrite length_map. exact Hlen.
        -- exists c. split; [right; exact Hc|]. split; assumption.
      * destruct IH as (Hres & Hall & Hlen').
        -- intros c Hc. apply Hreq. right. exact Hc.
        -- intros c Hc Hnc. apply rename_in.
           destruct (String.eqb_spec c col) as [->|Hne]; [left; auto|].
           right. split.
           ++ apply Hthere; [exact Hc|]. intros [Heq | Hin']; [congruence | auto].
           ++ intros ->. exact (alt_not_required col alt Hcolreq Halt Hc).
        -- intros c a Hc Ha. rewrite <- (Halts c a (or_intror Hc) Ha).
           rewrite rename_in. split.
           ++ intros [[_ ->] | [Hin' _]]; [|exact Hin'].
              exfalso. apply (alt_not_required c col (Hreq c (or_intror Hc)) Ha).
              exact Hcolreq.
           ++ intros Hin'. right. split; [exact Hin'|]. intros ->.
              apply (alts_disjoint col c alt Hcolreq (Hreq c (or_intror Hc)));
                [intros ->; exact (Hnotin Hc) | exact Halt | exact Ha].
        -- unfold rename. rewrite length_map. exact Hlen.
        -- split; [|split; assumption].
           intros c [<- | Hc]; [|apply Hres; exact Hc].
           exists alt. split; [exact Halt|].
           apply (Halts col alt (or_introl eq_refl) Halt). exact Hin.
    + exists col. split; [left; reflexivity|]. split; [reflexivity|].
      intros a Ha Hin. apply (Halts col a (or_introl eq_refl) Ha) in Hin.
      exact (first_alt_none _ _ E a Ha Hin).
Qed.

(** X19.  The check of the columns succeeds exactly when each of "date", "state"
    and "amount" is a column or has an alternative name among the columns;
    then all three are columns afterwards and no column is added or lost.
    Otherwise the error names a required column that has neither. *)
Theorem required_columns_resolved (columns : list string) :
  match resolve_columns columns with
  | inr columns' =>
      (forall col, In col required_cols -> resolvable columns col) /\
      (forall col, In col required_cols -> In col columns') /\
      List.length columns' = List.length columns
  | inl msg =>
      exists col,
        In col required_cols /\
        msg = ("Missing required column: " ++ col)%string /\
        ~ resolvable columns col
  end.
Proof.
  unfold resolve_columns.
  set (missing := filter (fun col => negb (has_column columns col)) required_cols).
  assert (Hmiss : forall c, In c missing <-> In c required_cols /\ ~ In c columns).
  { intros c. unfold missing. rewrite filter_In, negb_true_iff.
    split; intros [H1 H2]; (split; [exact H1|]).
    - intros Hin. apply has_column_in in Hin. congruence.
    - destruct (has_column columns c) eqn:E; [|reflexivity].
      apply has_column_in in E. destruct (H2 E). }
  assert (Hthere : forall c, In c required_cols -> ~ In c missing -> In c columns).
  { intros c Hc Hnc. destruct (has_column columns c) eqn:E;
      [apply has_column_in; exact E|].
    exfalso. apply Hnc. apply Hmiss. split; [exact Hc|].
    rewrite <- has_column_in. congruence. }
  assert (Hnd : NoDup missing).
  { unfold missing. apply NoDup_filter. unfold required_cols.
    repeat constructor; simpl; intuition discriminate. }
  pose proof (missing_loop_spec columns missing columns Hnd
                (fun c Hc => proj1 (proj1 (Hmiss c) Hc)) Hthere
                (fun c a _ _ => iff_refl _) eq_refl) as Hloop.
  assert (Hempty : missing = [] -> missing_loop missing columns = inr columns)
    by (intros ->; reflexivity).
  assert (Hgoal :
    match missing_loop missing columns with
    | inr columns' =>
        (forall col, In col required_cols -> resolvable columns col) /\
        (forall col, In col required_cols -> In col columns') /\
        List.length columns' = List.length columns
    | inl msg =>
        exists col,
          In col required_cols /\
          msg = ("Missing required column: " ++ col)%string /\
          ~ resolvable columns col
    end).
  { destruct (missing_loop missing columns) as [msg | columns'].
    - destruct Hloop as (col & Hcol & Hmsg & Hno).
      apply Hmiss in Hcol. destruct Hcol as [Hreq Hnot].
      exists col. split; [exact Hreq|]. split; [exact Hmsg|].
      intros [Hin | (a & Ha & Hin)]; [exact (Hnot Hin) | exact (Hno a Ha Hin)].
    - destruct Hloop as (Hres & Hall & Hlen). split; [|split; assumption].
      intros col Hcol. unfold resolvable.
      destruct (has_column columns col) eqn:E;
        [left; apply has_column_in; exact E|].
      right. apply Hres. apply Hmiss. split; [exact Hcol|].
      rewrite <- has_column_in. congruence. }
  destruct missing as [|c rest] eqn:Em; [|exact Hgoal].
  rewrite (Hempty eq_refl) in Hgoal. exact Hgoal.
Qed.

(** The files of the tests: alternative names are taken, and a file without
    an amount is refused. *)
Example columns_of_the_tests :
  resolve_columns ["transaction_date"; "State"; "sale_amount"]%string
  = inr ["date"; "state"; "amount"]%string /\
  resolve_columns ["date"; "state"]%string
  = inl "Missing required column: amount"%string.
Proof. split; reflexivity. Qed.

(** * The report *)







(** * The order of the results *)

Lemma group_fold_keys :
  forall l by_state,
    dict_keys
      (fold_left (fun d txn => dict_append d (Transaction.state_code txn) txn)
         l by_state)
    = dict_keys by_state
      ++ first_seen (dict_keys by_state) (map Transaction.state_code l).
Proof.
  induction l as [|t l IH]; intros by_state; simpl.
  - rewrite app_nil_r. reflexivity.
  - rewrite IH, dict_append_keys.
    destruct (existsb (String.eqb (Transaction.state_code t)) (dict_keys by_state)).
    + reflexivity.
    + rewrite <- app_assoc. reflexivity.
Qed.

Lemma with_rule_keys loader today by_state :
  map (fun g => fst (fst g)) (with_rule loader today by_state)
  = filter (has_rule loader today) (dict_keys by_state).
Proof.
  unfold with_rule, dict_keys, has_rule.
  induction by_state as [|[k g] rest IH]; simpl; [reflexivity|].
  destruct (get_rule_for_state loader today k); simpl; rewrite IH; reflexivity.
Qed.

Lemma no_rule_warnings_keys loader today by_state :
  no_rule_warnings loader today by_state
  = map no_rule_warning
      (filter (fun k => negb (has_rule loader today k)) (dict_keys by_state)).
Proof.
  unfold no_rule_warnings, dict_keys, has_rule.
  induction by_state as [|[k g] rest IH]; simpl; [reflexivity|].
  destruct (get_rule_for_state loader today k); simpl; rewrite IH; reflexivity.
Qed.

(** X21.  The order of an analysis.  The results come first for the states of the
    transactions that passed the filter, in the order in which the states
    first occur, as far as they have a rule; then, in the order of the rules,
    for the current rules not met so far.  The warnings are those of the
    filter, then one for each state without a rule, in the same order. *)
Theorem results_in_processing_order loader today transactions year_opt
    ignore_marketplace include_negatives :
  exists res,
    analyze loader today transactions year_opt ignore_marketplace
      include_negatives = Some res /\
    let kept := filter (passes (AnalysisResult.analysis_year res)
                          ignore_marketplace include_negatives) transactions in
    let states := first_seen [] (map Transaction.state_code kept) in
    let processed := filter (has_rule loader today) states in
    map StateResult.state_code (AnalysisResult.state_results res)
    = processed
      ++ map StateRule.state_code
           (filter (fun rule =>
                      negb (existsb (String.eqb (StateRule.state_code rule))
                              processed))
              (get_current_rules loader today)) /\
    AnalysisResult.warnings res
    = snd (_filter_transactions transactions (AnalysisResult.analysis_year res)
             ignore_marketplace include_negatives [])
      ++ map no_rule_warning
           (filter (fun k => negb (has_rule loader today k)) states).
Proof.
  destruct (analyze_spec_warnings loader today transactions year_opt
              ignore_marketplace include_negatives) as (results & Hall & H).
  eexists. split; [exact H|].
  cbn [AnalysisResult.state_results AnalysisResult.analysis_year
       AnalysisResult.warnings].
  set (yr := match year_opt with Some y => y | None => year today end) in *.
  set (filtered := filter (passes yr ignore_marketplace include_negatives)
                     transactions) in *.
  assert (Hkeys : dict_keys (_group_by_state filtered)
                  = first_seen [] (map Transaction.state_code filtered))
    by (unfold _group_by_state; rewrite group_fold_keys; reflexivity).
  cbv zeta. split.
  - rewrite map_app, zero_activity_codes.
    rewrite (analyzed_codes _ _ _ Hall), with_rule_keys, Hkeys. reflexivity.
  - rewrite no_rule_warnings_keys, Hkeys. reflexivity.
Qed.
